(** * Raja-Mantri-Chor-Sipahi game backend: room/round state machine

    A shallow embedding of the request handlers of [src/main.py] and the
    properties of its room directory, round engine and scoring engine.

    Conventions of the embedding:
    - the module-level dictionary [rooms] is a [gmap string Room] carried in
      the [World], next to the number of [uuid4()] calls made so far;
    - [uuid4] is an oracle (a section variable): the n-th call yields
      [uuid4 n];
    - [random.shuffle(ROLES)] is an oracle too: [assign_roles] receives the
      shuffled list as an argument;
    - a handler returns the world it leaves behind together with either its
      return value or the exception it raised;
    - Python [int] is [Z]; [Optional[str]] is [option string]. *)

From Stdlib Require Import ZArith Lia.
From stdpp Require Import base tactics option list sorting strings pretty gmap.

Open Scope string_scope.
Open Scope Z_scope.
Open Scope list_scope.

(** ** Exceptions and handler outcomes *)

Inductive exn :=
| HTTPException (status_code : Z) (detail : string)
| KeyError (key : option string).

Inductive outcome (A : Type) :=
| Ok (a : A)
| Raise (e : exn).
Arguments Ok {A} a.
Arguments Raise {A} e.

(** The error kinds of the specification, as carried by the status code. *)
Definition NotFound (e : exn) : Prop := ∃ d, e = HTTPException 404 d.
Definition InvalidState (e : exn) : Prop := ∃ d, e = HTTPException 400 d.
Definition Forbidden (e : exn) : Prop := ∃ d, e = HTTPException 403 d.

(** ** Data model: [class Player], [class Room], [rooms] *)

Record Player := mkPlayer {
  p_id : string;
  p_name : string;
  p_role : option string;
  p_score : Z
}.

Record Room := mkRoom {
  r_id : string;
  r_name : string;
  players : list Player;
  waitlist : list Player;
  roles_assigned : bool;
  mantri_id : option string;
  chor_id : option string;
  guess_submitted : bool;
  guessed_player_id : option string;
  round_number : Z
}.

Record World := mkWorld {
  rooms : gmap string Room;
  uuid_calls : nat
}.

Definition init_world : World := mkWorld ∅ 0.

#[global] Instance Player_eq_dec : EqDecision Player.
Proof. solve_decision. Defined.

#[global] Instance exn_eq_dec : EqDecision exn.
Proof. solve_decision. Defined.

(** Attribute assignments on a player or a room. *)
Definition set_role (role : option string) (p : Player) : Player :=
  mkPlayer (p_id p) (p_name p) role (p_score p).

Definition add_score (d : Z) (p : Player) : Player :=
  mkPlayer (p_id p) (p_name p) (p_role p) (p_score p + d).

Definition set_players (ps : list Player) (r : Room) : Room :=
  mkRoom (r_id r) (r_name r) ps (waitlist r) (roles_assigned r) (mantri_id r)
         (chor_id r) (guess_submitted r) (guessed_player_id r) (round_number r).

Definition set_waitlist (wl : list Player) (r : Room) : Room :=
  mkRoom (r_id r) (r_name r) (players r) wl (roles_assigned r) (mantri_id r)
         (chor_id r) (guess_submitted r) (guessed_player_id r) (round_number r).

(** [POINTS] (main.py, lines 83-88). *)
Definition POINTS : gmap string Z :=
  <["Raja" := 1000]> (<["Mantri" := 800]> (<["Sipahi" := 500]> (<["Chor" := 0]> ∅))).

(** [POINTS[key]]: a missing key (and [None]) raises [KeyError]. *)
Definition POINTS_getitem (key : option string) : outcome Z :=
  match key with
  | Some k => match POINTS !! k with
              | Some v => Ok v
              | None => Raise (KeyError key)
              end
  | None => Raise (KeyError None)
  end.

(** The list literal of [assign_roles], before it is shuffled. *)
Definition ROLES : list string := ["Raja"; "Mantri"; "Chor"; "Sipahi"].

(** ** Response payloads (the dictionaries the handlers return) *)

Record IdName := mkIdName { in_id : string; in_name : string }.

Record CreateRoomResponse := mkCreateRoomResponse {
  crr_roomId : string; crr_playerId : string; crr_message : string
}.

Record JoinMultipleResponse := mkJoinMultipleResponse {
  jmr_roomId : string;
  jmr_added : list IdName;
  jmr_waitlisted : list IdName;
  jmr_message : string
}.

Record PlayerListResponse := mkPlayerListResponse {
  plr_roomId : string; plr_players : list IdName; plr_waitlistCount : nat
}.

(** What [view_role] returns: the handler stores [p.role] in the dictionary
    as it is, [None] included. *)
Record RoleResponse := mkRoleResponse {
  rr_playerId : string; rr_role : option string
}.

Record GuessResponse := mkGuessResponse {
  gr_result : string; gr_actualChorId : option string
}.

Record ResultEntry := mkResultEntry {
  re_id : string; re_name : string; re_role : string; re_score : Z
}.

Record ResultResponse := mkResultResponse {
  res_round : Z; res_players : list ResultEntry
}.

Record LeaderboardEntry := mkLeaderboardEntry {
  le_id : string; le_name : string; le_score : Z
}.

(** ** Request handlers *)

Section Handlers.

(** The identifier produced by the n-th call of [uuid4()]. *)
Variable uuid4 : nat → string.

(** [Player(name)]: one call of [uuid4], no role, score 0. *)
Definition new_Player (calls : nat) (name : string) : Player * nat :=
  (mkPlayer (uuid4 calls) name None 0, S calls).

(** [Room(name, hostPlayer)]. *)
Definition new_Room (calls : nat) (name : string) (hostPlayer : Player) : Room * nat :=
  (mkRoom (uuid4 calls) name [hostPlayer] [] false None None false None 0, S calls).

(** [create_room] (lines 91-101). *)
Definition create_room (w : World) (roomName playerName : string)
  : World * outcome CreateRoomResponse :=
  let '(host, c1) := new_Player (uuid_calls w) playerName in
  let '(room, c2) := new_Room c1 roomName host in
  (mkWorld (<[r_id room := room]> (rooms w)) c2,
   Ok (mkCreateRoomResponse (r_id room) (p_id host) "Room created successfully")).

(** The state threaded through the loop of [join_multiple_players]. *)
Record JoinState := mkJoinState {
  js_room : Room;
  js_added : list IdName;
  js_waitlisted : list IdName;
  js_calls : nat
}.

(** One iteration of the loop (lines 117-123). *)
Definition join_step (st : JoinState) (name : string) : JoinState :=
  let '(p, c) := new_Player (js_calls st) name in
  if decide (length (players (js_room st)) < 4)%nat then
    mkJoinState (set_players (players (js_room st) ++ [p]) (js_room st))
                (js_added st ++ [mkIdName (p_id p) (p_name p)])
                (js_waitlisted st) c
  else
    mkJoinState (set_waitlist (waitlist (js_room st) ++ [p]) (js_room st))
                (js_added st)
                (js_waitlisted st ++ [mkIdName (p_id p) (p_name p)]) c.

Definition join_loop (st : JoinState) (playerNames : list string) : JoinState :=
  fold_left join_step playerNames st.

(** [join_multiple_players] (lines 107-130). *)
Definition join_multiple_players (w : World) (roomId : string)
    (playerNames : list string) : World * outcome JoinMultipleResponse :=
  match rooms w !! roomId with
  | None => (w, Raise (HTTPException 404 "Room not found"))
  | Some room =>
      let st := join_loop (mkJoinState room [] [] (uuid_calls w)) playerNames in
      (mkWorld (<[roomId := js_room st]> (rooms w)) (js_calls st),
       Ok (mkJoinMultipleResponse (r_id (js_room st)) (js_added st)
             (js_waitlisted st) "Players processed successfully"))
  end.

(** [get_players] (lines 134-145). *)
Definition get_players (w : World) (roomId : string)
  : World * outcome PlayerListResponse :=
  match rooms w !! roomId with
  | None => (w, Raise (HTTPException 404 "Room not found"))
  | Some room =>
      (w, Ok (mkPlayerListResponse roomId
                (map (λ p, mkIdName (p_id p) (p_name p)) (players room))
                (length (waitlist room))))
  end.

(** The loop over [zip(room.players, ROLES)] (lines 161-166): it returns the
    players with their new roles and the values left in [room.mantri_id] and
    [room.chor_id].  Players beyond the end of the shorter list are not
    visited. *)
Fixpoint assign_loop (ps : list Player) (roles : list string)
    (mantri chor : option string)
  : list Player * option string * option string :=
  match ps, roles with
  | p :: ps', role :: roles' =>
      let mantri' := if decide (role = "Mantri") then Some (p_id p) else mantri in
      let chor' := if decide (role = "Chor") then Some (p_id p) else chor in
      let '(rest, m, c) := assign_loop ps' roles' mantri' chor' in
      (set_role (Some role) p :: rest, m, c)
  | _, _ => (ps, mantri, chor)
  end.

(** [assign_roles] (lines 149-172); [shuffled] is the content of [ROLES]
    after [random.shuffle(ROLES)].  The returned value is the round number
    interpolated in the message. *)
Definition assign_roles (w : World) (roomId : string) (shuffled : list string)
  : World * outcome Z :=
  match rooms w !! roomId with
  | None => (w, Raise (HTTPException 404 "Room not found"))
  | Some room =>
      if decide (length (players room) ≠ 4%nat) then
        (w, Raise (HTTPException 400
                     "Exactly 4 players are required to start the game"))
      else
        let '(ps, m, c) :=
          assign_loop (players room) shuffled (mantri_id room) (chor_id room) in
        let room' :=
          mkRoom (r_id room) (r_name room) ps (waitlist room) true m c false
                 (guessed_player_id room) (round_number room + 1) in
        (mkWorld (<[roomId := room']> (rooms w)) (uuid_calls w),
         Ok (round_number room'))
  end.

(** [view_role] (lines 176-185): the first player whose id matches. *)
Fixpoint view_role_loop (ps : list Player) (playerId : string)
  : outcome RoleResponse :=
  match ps with
  | [] => Raise (HTTPException 404 "Player not found")
  | p :: ps' =>
      if decide (p_id p = playerId) then Ok (mkRoleResponse (p_id p) (p_role p))
      else view_role_loop ps' playerId
  end.

Definition view_role (w : World) (roomId playerId : string)
  : World * outcome RoleResponse :=
  match rooms w !! roomId with
  | None => (w, Raise (HTTPException 404 "Room not found"))
  | Some room => (w, view_role_loop (players room) playerId)
  end.

(** The score delta of one player in the loop of [submit_guess]
    (lines 209-217). *)
Definition score_delta (correct_guess : bool) (role : option string) : outcome Z :=
  if correct_guess then POINTS_getitem role
  else if decide (role = Some "Chor") then POINTS_getitem (Some "Mantri")
  else if decide (role = Some "Mantri") then Ok 0
  else POINTS_getitem role.

(** The scoring loop (lines 204-217).  When an iteration raises, the players
    already visited keep their new score and the others are untouched.
    [p.score] is an [int] from [Player.__init__] on and is only ever
    incremented, so the [is None] guard of lines 206-207 never fires. *)
Fixpoint score_loop (correct_guess : bool) (ps : list Player)
  : list Player * option exn :=
  match ps with
  | [] => ([], None)
  | p :: ps' =>
      match score_delta correct_guess (p_role p) with
      | Raise e => (p :: ps', Some e)
      | Ok d =>
          let '(rest, e) := score_loop correct_guess ps' in
          (add_score d p :: rest, e)
      end
  end.

(** [submit_guess] (lines 189-222). *)
Definition submit_guess (w : World) (roomId playerId guessedPlayerId : string)
  : World * outcome GuessResponse :=
  match rooms w !! roomId with
  | None => (w, Raise (HTTPException 404 "Room not found"))
  | Some room =>
      if decide (Some playerId ≠ mantri_id room) then
        (w, Raise (HTTPException 403 "Only Mantri can guess"))
      else
        let correct_guess := bool_decide (Some guessedPlayerId = chor_id room) in
        let '(ps, e) := score_loop correct_guess (players room) in
        let room' :=
          mkRoom (r_id room) (r_name room) ps (waitlist room)
                 (roles_assigned room) (mantri_id room) (chor_id room) true
                 (Some guessedPlayerId) (round_number room) in
        (mkWorld (<[roomId := room']> (rooms w)) (uuid_calls w),
         match e with
         | Some e => Raise e
         | None =>
             Ok (mkGuessResponse (if correct_guess then "correct" else "incorrect")
                   (chor_id room))
         end)
  end.

(** [p.role if p.role else "Unknown"]: [None] and the empty string are
    falsy. *)
Definition role_or_unknown (role : option string) : string :=
  match role with
  | Some EmptyString => "Unknown"
  | Some s => s
  | None => "Unknown"
  end.

(** [result] (lines 227-252); the score is always an [int], see
    [score_loop]. *)
Definition result (w : World) (roomId : string) : World * outcome ResultResponse :=
  match rooms w !! roomId with
  | None => (w, Raise (HTTPException 404 "Room not found"))
  | Some room =>
      if negb (roles_assigned room) then
        (w, Raise (HTTPException 400 "Roles not assigned yet"))
      else if negb (guess_submitted room) then
        (w, Raise (HTTPException 400 "Mantri has not guessed yet"))
      else
        (w, Ok (mkResultResponse (round_number room)
                  (map (λ p, mkResultEntry (p_id p) (p_name p)
                               (role_or_unknown (p_role p)) (p_score p))
                       (players room))))
  end.

(** [sorted(..., key=lambda p: p.score, reverse=True)]: a stable sort in
    descending order of the key.  [insert_desc p l] puts [p] in front of the
    first element whose score is not greater than its own, so that a player
    stays ahead of the equal-score players that followed it. *)
Fixpoint insert_desc (p : Player) (l : list Player) : list Player :=
  match l with
  | [] => [p]
  | q :: l' =>
      if decide (p_score p < p_score q) then q :: insert_desc p l'
      else p :: q :: l'
  end.

Definition sorted_by_score_desc (ps : list Player) : list Player :=
  foldr insert_desc [] ps.

(** [leaderboard] (lines 258-270). *)
Definition leaderboard (w : World) (roomId : string)
  : World * outcome (list LeaderboardEntry) :=
  match rooms w !! roomId with
  | None => (w, Raise (HTTPException 404 "Room not found"))
  | Some room =>
      (w, Ok (map (λ p, mkLeaderboardEntry (p_id p) (p_name p) (p_score p))
                  (sorted_by_score_desc (players room))))
  end.

End Handlers.

(** ** Requests and executions of the service *)

Inductive request :=
| CreateRoom (roomName playerName : string)
| JoinMultiple (roomId : string) (playerNames : list string)
| GetPlayers (roomId : string)
| AssignRoles (roomId : string) (shuffled : list string)
| ViewRole (roomId playerId : string)
| SubmitGuess (roomId playerId guessedPlayerId : string)
| GetResult (roomId : string)
| GetLeaderboard (roomId : string).

Inductive reply :=
| CreateRoomReply (r : CreateRoomResponse)
| JoinMultipleReply (r : JoinMultipleResponse)
| PlayerListReply (r : PlayerListResponse)
| AssignRolesReply (round : Z)
| RoleReply (r : RoleResponse)
| GuessReply (r : GuessResponse)
| ResultReply (r : ResultResponse)
| LeaderboardReply (r : list LeaderboardEntry).

Definition outcome_map {A B} (f : A → B) (o : outcome A) : outcome B :=
  match o with
  | Ok a => Ok (f a)
  | Raise e => Raise e
  end.

(** [random.shuffle] only ever hands [assign_roles] a rearrangement of the
    four role names. *)
Definition valid_request (rq : request) : Prop :=
  match rq with
  | AssignRoles _ shuffled => shuffled ≡ₚ ROLES
  | _ => True
  end.

(** One served request together with what the handler answered. *)
Definition event : Type := request * outcome reply.

(** A successful [assign_roles] on room [roomId]. *)
Definition assign_event (roomId : string) (ev : event) : Prop :=
  ∃ shuffled round, ev = (AssignRoles roomId shuffled, Ok (AssignRolesReply round)).

(** A successful [submit_guess] on room [roomId]. *)
Definition guess_event (roomId : string) (ev : event) : Prop :=
  ∃ playerId guessed r,
    ev = (SubmitGuess roomId playerId guessed, Ok (GuessReply r)).

Section Executions.

Variable uuid4 : nat → string.

Definition handle (w : World) (rq : request) : World * outcome reply :=
  match rq with
  | CreateRoom roomName playerName =>
      prod_map id (outcome_map CreateRoomReply)
        (create_room uuid4 w roomName playerName)
  | JoinMultiple roomId playerNames =>
      prod_map id (outcome_map JoinMultipleReply)
        (join_multiple_players uuid4 w roomId playerNames)
  | GetPlayers roomId =>
      prod_map id (outcome_map PlayerListReply) (get_players w roomId)
  | AssignRoles roomId shuffled =>
      prod_map id (outcome_map AssignRolesReply) (assign_roles w roomId shuffled)
  | ViewRole roomId playerId =>
      prod_map id (outcome_map RoleReply) (view_role w roomId playerId)
  | SubmitGuess roomId playerId guessed =>
      prod_map id (outcome_map GuessReply)
        (submit_guess w roomId playerId guessed)
  | GetResult roomId =>
      prod_map id (outcome_map ResultReply) (result w roomId)
  | GetLeaderboard roomId =>
      prod_map id (outcome_map LeaderboardReply) (leaderboard w roomId)
  end.

(** Serving a list of requests one after the other, from world [w]: the
    events in chronological order and the final world. *)
Fixpoint serve (w : World) (rqs : list request) : list event * World :=
  match rqs with
  | [] => ([], w)
  | rq :: rqs' =>
      let '(w', out) := handle w rq in
      let '(log, w'') := serve w' rqs' in
      ((rq, out) :: log, w'')
  end.

(** The worlds the service can be in, with the history that led there. *)
Definition execution (log : list event) (w : World) : Prop :=
  ∃ rqs, Forall valid_request rqs ∧ serve init_world rqs = (log, w).

Definition reachable (w : World) : Prop := ∃ log, execution log w.

End Executions.

(** ** Predicates of the specification *)

(** The per-role score table of the scoring engine, as the specification
    gives it (rows: guess outcome; columns: role). *)
Definition table_delta (correctGuess : bool) (role : string) : Z :=
  if correctGuess then
    if decide (role = "Raja") then 1000
    else if decide (role = "Mantri") then 800
    else if decide (role = "Chor") then 0
    else if decide (role = "Sipahi") then 500
    else 0
  else
    if decide (role = "Raja") then 1000
    else if decide (role = "Mantri") then 0
    else if decide (role = "Chor") then 800
    else if decide (role = "Sipahi") then 500
    else 0.

(** A player holding one of the four roles. *)
Definition has_role (p : Player) : Prop :=
  ∃ role, p_role p = Some role ∧ role ∈ ROLES.

(** The four roles are dealt exactly once each. *)
Definition roles_dealt (ps : list Player) : Prop :=
  map p_role ps ≡ₚ map Some ROLES.

Definition total_score (ps : list Player) : Z :=
  foldr (λ p acc, p_score p + acc) 0 ps.

(** What holds of every room of a reachable world: at most 4 active
    players; once roles are assigned the four roles are dealt exactly once
    each and [mantri_id] and [chor_id] name the holders of Mantri and Chor;
    before that nobody has a role and no guess can have been accepted. *)
Definition room_inv (r : Room) : Prop :=
  (length (players r) ≤ 4)%nat ∧
  if roles_assigned r then
    roles_dealt (players r) ∧
    (∀ p, p ∈ players r → p_role p = Some "Mantri" → mantri_id r = Some (p_id p)) ∧
    (∀ p, p ∈ players r → p_role p = Some "Chor" → chor_id r = Some (p_id p))
  else
    mantri_id r = None ∧ chor_id r = None ∧ guess_submitted r = false ∧
    Forall (λ p, p_role p = None) (players r).

(** Descending order of score. *)
Definition score_ge (a b : Z) : Prop := (b ≤ a)%Z.

(** ** The rooms the operations leave behind *)

(** The players [join_multiple_players] creates for [names], in order,
    starting at the [calls]-th identifier. *)
Fixpoint new_players (uuid4 : nat → string) (calls : nat) (names : list string)
  : list Player :=
  match names with
  | [] => []
  | name :: names' =>
      mkPlayer (uuid4 calls) name None 0 :: new_players uuid4 (S calls) names'
  end.

Definition id_name (p : Player) : IdName := mkIdName (p_id p) (p_name p).

(** Fill-then-overflow: the first [4 - len(players)] newcomers become
    active, the others are waitlisted. *)
Definition joined_room (room : Room) (news : list Player) : Room :=
  let k := (4 - length (players room))%nat in
  mkRoom (r_id room) (r_name room) (players room ++ take k news)
         (waitlist room ++ drop k news) (roles_assigned room) (mantri_id room)
         (chor_id room) (guess_submitted room) (guessed_player_id room)
         (round_number room).

(** The room a successful [assign_roles] leaves behind. *)
Definition assigned_room (room : Room) (shuffled : list string) : Room :=
  let '(ps, m, c) :=
    assign_loop (players room) shuffled (mantri_id room) (chor_id room) in
  mkRoom (r_id room) (r_name room) ps (waitlist room) true m c false
         (guessed_player_id room) (round_number room + 1).

(** The delta the table gives to a player, by the role it holds. *)
Definition player_delta (correct : bool) (p : Player) : Z :=
  table_delta correct (default EmptyString (p_role p)).

(** The room a successful [submit_guess] leaves behind. *)
Definition guessed_room (room : Room) (guessed : string) : Room :=
  let correct := bool_decide (Some guessed = chor_id room) in
  mkRoom (r_id room) (r_name room)
         (map (λ p, add_score (player_delta correct p) p) (players room))
         (waitlist room) (roles_assigned room) (mantri_id room) (chor_id room)
         true (Some guessed) (round_number room).

(** The current round of room [roomId] has begun: the history holds a
    successful [assign_roles] on the room, the latest one being [a]. *)
Definition round_assigned (roomId : string) (log : list event) : Prop :=
  ∃ l1 a l2,
    log = l1 ++ a :: l2 ∧ assign_event roomId a ∧
    Forall (λ ev, ¬ assign_event roomId ev) l2.

(** The current round of room [roomId] has its guess: a successful
    [submit_guess] on the room came after the latest successful
    [assign_roles] on it. *)
Definition round_guessed (roomId : string) (log : list event) : Prop :=
  ∃ l1 a l2 g l3,
    log = l1 ++ a :: l2 ++ g :: l3 ∧ assign_event roomId a ∧
    guess_event roomId g ∧ Forall (λ ev, ¬ assign_event roomId ev) (l2 ++ l3).

(** The two flags of a room are backed by the history. *)
Definition history_inv (log : list event) (w : World) : Prop :=
  ∀ roomId room, rooms w !! roomId = Some room →
    (roles_assigned room = true → round_assigned roomId log) ∧
    (guess_submitted room = true → round_guessed roomId log).

(** The identifiers of the players of a room, active then waitlisted. *)
Definition room_ids (r : Room) : list string :=
  map p_id (players r ++ waitlist r).

(** No two players of the room share an identifier, and every identifier
    was produced by one of the first [calls] calls of [uuid4()]. *)
Definition ids_inv (uuid4 : nat → string) (calls : nat) (r : Room) : Prop :=
  NoDup (room_ids r) ∧
  Forall (λ i, ∃ k, (k < calls)%nat ∧ i = uuid4 k) (room_ids r).

(** ** A sample session

    One room, four players, one round played; used to exercise the
    theorems below on concrete data. *)

Definition demo_uuid4 (n : nat) : string := "u" +:+ pretty n.

Definition demo_requests : list request :=
  [CreateRoom "den" "Asha";
   JoinMultiple "u1" ["Bala"; "Chitra"; "Dev"; "Esha"];
   AssignRoles "u1" ROLES;
   SubmitGuess "u1" "u2" "u3"].

Definition demo_log : list event := (serve demo_uuid4 init_world demo_requests).1.

Definition demo_world : World := (serve demo_uuid4 init_world demo_requests).2.

(** The room of the sample session at its successive stages. *)
Definition demo_room_open : Room :=
  mkRoom "u1" "den" [mkPlayer "u0" "Asha" None 0] [] false None None false None 0.

Definition demo_room_full : Room :=
  mkRoom "u1" "den"
    [mkPlayer "u0" "Asha" None 0; mkPlayer "u2" "Bala" None 0;
     mkPlayer "u3" "Chitra" None 0; mkPlayer "u4" "Dev" None 0]
    [mkPlayer "u5" "Esha" None 0] false None None false None 0.

Definition demo_room_assigned : Room :=
  mkRoom "u1" "den"
    [mkPlayer "u0" "Asha" (Some "Raja") 0; mkPlayer "u2" "Bala" (Some "Mantri") 0;
     mkPlayer "u3" "Chitra" (Some "Chor") 0; mkPlayer "u4" "Dev" (Some "Sipahi") 0]
    [mkPlayer "u5" "Esha" None 0] true (Some "u2") (Some "u3") false None 1.

Definition demo_room_guessed : Room :=
  mkRoom "u1" "den"
    [mkPlayer "u0" "Asha" (Some "Raja") 1000;
     mkPlayer "u2" "Bala" (Some "Mantri") 800;
     mkPlayer "u3" "Chitra" (Some "Chor") 0;
     mkPlayer "u4" "Dev" (Some "Sipahi") 500]
    [mkPlayer "u5" "Esha" None 0] true (Some "u2") (Some "u3") true (Some "u3") 1.

Definition world_of (room : Room) (calls : nat) : World :=
  mkWorld {[ r_id room := room ]} calls.

(** ** What one request does to the directory *)

(** The room [create_room] registers: the host alone, nothing started. *)
Definition created_room (uuid4 : nat → string) (calls : nat)
    (roomName playerName : string) : Room :=
  mkRoom (uuid4 (S calls)) roomName [mkPlayer (uuid4 calls) playerName None 0]
         [] false None None false None 0.

(** The ways a handler rebinds a key of [rooms]: the key, the room it now
    holds and the number of [uuid4()] calls afterwards. *)
Inductive room_update (uuid4 : nat → string) (w : World)
  : string → Room → nat → Prop :=
| update_created roomName playerName :
    room_update uuid4 w (uuid4 (S (uuid_calls w)))
      (created_room uuid4 (uuid_calls w) roomName playerName)
      (S (S (uuid_calls w)))
| update_joined roomId room names :
    rooms w !! roomId = Some room →
    room_update uuid4 w roomId
      (joined_room room (new_players uuid4 (uuid_calls w) names))
      (uuid_calls w + length names)
| update_assigned roomId room shuffled :
    rooms w !! roomId = Some room →
    length (players room) = 4%nat →
    shuffled ≡ₚ ROLES →
    room_update uuid4 w roomId (assigned_room room shuffled) (uuid_calls w)
| update_guessed roomId room playerId guessed :
    rooms w !! roomId = Some room →
    mantri_id room = Some playerId →
    roles_assigned room = true →
    roles_dealt (players room) →
    room_update uuid4 w roomId (guessed_room room guessed) (uuid_calls w).

(** The three errors the handlers raise on purpose. *)
Definition http_error (e : exn) : Prop :=
  NotFound e ∨ InvalidState e ∨ Forbidden e.

(** The books of a room: scores are never negative, waitlisted players have
    neither role nor points, an accepted guess is stored, and before the
    first round nobody has scored. *)
Definition ledger_inv (r : Room) : Prop :=
  Forall (λ p, 0 ≤ p_score p) (players r) ∧
  Forall (λ p, p_role p = None ∧ p_score p = 0) (waitlist r) ∧
  (guess_submitted r = true → is_Some (guessed_player_id r)) ∧
  if roles_assigned r then 1 ≤ round_number r
  else round_number r = 0 ∧ guessed_player_id r = None ∧
       Forall (λ p, p_score p = 0) (players r).

(** Every key of [rooms] is the id of the room it holds and came out of an
    earlier [uuid4()] call. *)
Definition key_inv (uuid4 : nat → string) (w : World) : Prop :=
  ∀ k r, rooms w !! k = Some r →
    r_id r = k ∧ ∃ n, (n < uuid_calls w)%nat ∧ k = uuid4 n.

(** One entry of the payload of [result]. *)
Definition result_entry (p : Player) : ResultEntry :=
  mkResultEntry (p_id p) (p_name p) (role_or_unknown (p_role p)) (p_score p).

(** ** The route of [view_role] and its response model

    [view_role] is registered with [response_model=RoleResponse] (line 176),
    and [class RoleResponse] (lines 43-45) declares [playerId: str] and
    [role: str].  The framework checks what the handler returns against that
    model before it answers: a dictionary whose [role] is [None] does not
    fit [role: str], and the request then ends in a response validation
    error (status 500) instead of a role. *)

(** [class RoleResponse(BaseModel)]: both fields are strings. *)
Record RoleResponseModel := mkRoleResponseModel {
  rrm_playerId : string;
  rrm_role : string
}.

(** The check of a returned dictionary against [RoleResponse]. *)
Definition RoleResponse_validate (r : RoleResponse) : option RoleResponseModel :=
  match rr_role r with
  | Some role => Some (mkRoleResponseModel (rr_playerId r) role)
  | None => None
  end.

(** How a request to the route ends: a body that fits the response model,
    an exception raised by the handler, or a returned value that the
    response model rejects. *)
Inductive route_outcome (A : Type) :=
| Sent (body : A)
| HandlerRaised (e : exn)
| ResponseValidationError.
Arguments Sent {A} body.
Arguments HandlerRaised {A} e.
Arguments ResponseValidationError {A}.

(** [GET /role/me/{roomId}/{playerId}]: the handler, then the response
    model. *)
Definition view_role_route (w : World) (roomId playerId : string)
  : World * route_outcome RoleResponseModel :=
  let '(w', out) := view_role w roomId playerId in
  match out with
  | Raise e => (w', HandlerRaised e)
  | Ok r =>
      match RoleResponse_validate r with
      | Some body => (w', Sent body)
      | None => (w', ResponseValidationError)
      end
  end.

(** * Proofs *)

(** ** The sample session, stage by stage *)

Example demo_session_stages :
  (serve demo_uuid4 init_world (take 1 demo_requests)).2 = world_of demo_room_open 2 ∧
  (serve demo_uuid4 init_world (take 2 demo_requests)).2 = world_of demo_room_full 6 ∧
  (serve demo_uuid4 init_world (take 3 demo_requests)).2
  = world_of demo_room_assigned 6 ∧
  demo_world = world_of demo_room_guessed 6.
Proof. split_and!; vm_compute; reflexivity. Qed.

Example table_delta_values :
  map (table_delta true) ROLES = [1000; 800; 0; 500] ∧
  map (table_delta false) ROLES = [1000; 0; 800; 500].
Proof. split; reflexivity. Qed.

(** ** The scoring engine *)

Lemma elem_of_ROLES role :
  role ∈ ROLES ↔ role = "Raja" ∨ role = "Mantri" ∨ role = "Chor" ∨ role = "Sipahi".
Proof.
  unfold ROLES. rewrite !elem_of_cons, elem_of_nil. tauto.
Qed.

Lemma score_delta_table correct role :
  role ∈ ROLES → score_delta correct (Some role) = Ok (table_delta correct role).
Proof.
  rewrite elem_of_ROLES.
  intros [-> | [-> | [-> | ->]]]; destruct correct; reflexivity.
Qed.


Lemma score_loop_table correct ps :
  Forall has_role ps →
  score_loop correct ps = (map (λ p, add_score (player_delta correct p) p) ps, None).
Proof.
  induction 1 as [| p ps [role [Hrole Hin]] _ IH]; [reflexivity |].
  cbn [score_loop map]. rewrite Hrole, (score_delta_table _ _ Hin), IH.
  unfold player_delta. rewrite Hrole. reflexivity.
Qed.


Lemma submit_guess_ok w roomId room playerId guessed :
  rooms w !! roomId = Some room →
  Forall has_role (players room) →
  mantri_id room = Some playerId →
  submit_guess w roomId playerId guessed =
    (mkWorld (<[roomId := guessed_room room guessed]> (rooms w)) (uuid_calls w),
     Ok (mkGuessResponse
           (if bool_decide (Some guessed = chor_id room) then "correct"
            else "incorrect")
           (chor_id room))).
Proof.
  intros Hroom Hroles Hmantri. unfold submit_guess. rewrite Hroom.
  destruct (decide (Some playerId ≠ mantri_id room)) as [Hne | _]; [congruence |].
  rewrite (score_loop_table _ _ Hroles). reflexivity.
Qed.

Lemma submit_guess_forbidden w roomId room playerId guessed :
  rooms w !! roomId = Some room →
  mantri_id room ≠ Some playerId →
  submit_guess w roomId playerId guessed =
    (w, Raise (HTTPException 403 "Only Mantri can guess")).
Proof.
  intros Hroom Hne. unfold submit_guess. rewrite Hroom.
  destruct (decide (Some playerId ≠ mantri_id room)) as [_ | Heq]; [done |].
  exfalso. apply Hne. apply dec_stable in Heq. done.
Qed.

(** ** The round engine *)

Lemma NoDup_ROLES : NoDup ROLES.
Proof. compute_done. Qed.

Lemma assign_loop_spec ps : ∀ roles mantri chor ps' mantri' chor',
  assign_loop ps roles mantri chor = (ps', mantri', chor') →
  length ps = length roles →
  NoDup roles →
  ps' = zip_with (λ p role, set_role (Some role) p) ps roles ∧
  (∀ q, q ∈ ps' → p_role q = Some "Mantri" → mantri' = Some (p_id q)) ∧
  ("Mantri" ∉ roles → mantri' = mantri) ∧
  (∀ q, q ∈ ps' → p_role q = Some "Chor" → chor' = Some (p_id q)) ∧
  ("Chor" ∉ roles → chor' = chor).
Proof.
  induction ps as [| p ps IH]; intros [| role roles] mantri chor ps' mantri' chor';
    cbn [assign_loop]; intros Hloop Hlen Hnd; try discriminate Hlen.
  - injection Hloop as <- <- <-. split_and!; try done.
    all: intros q Hq; by apply elem_of_nil in Hq.
  - destruct (assign_loop ps roles _ _) as [[rest m] c] eqn:Hrest.
    injection Hloop as <- <- <-.
    apply NoDup_cons in Hnd as [Hfresh Hnd].
    destruct (IH _ _ _ _ _ _ Hrest ltac:(by injection Hlen) Hnd)
      as (-> & Hm & Hm0 & Hc & Hc0).
    split_and!.
    + reflexivity.
    + intros q [-> | Hq]%elem_of_cons Hq_role; [| by apply Hm].
      injection Hq_role as ->. rewrite Hm0 by done. by rewrite decide_True.
    + intros Hnotin%not_elem_of_cons. destruct Hnotin as [Hne Hnotin].
      rewrite Hm0 by done. by rewrite decide_False.
    + intros q [-> | Hq]%elem_of_cons Hq_role; [| by apply Hc].
      injection Hq_role as ->. rewrite Hc0 by done. by rewrite decide_True.
    + intros Hnotin%not_elem_of_cons. destruct Hnotin as [Hne Hnotin].
      rewrite Hc0 by done. by rewrite decide_False.
Qed.

Lemma zip_with_set_role_roles ps : ∀ roles,
  length ps = length roles →
  map p_role (zip_with (λ p role, set_role (Some role) p) ps roles) = map Some roles.
Proof.
  induction ps as [| p ps IH]; intros [| role roles] Hlen; try discriminate Hlen;
    [reflexivity |].
  cbn. f_equal. apply IH. by injection Hlen.
Qed.

Lemma zip_with_set_role_frame ps : ∀ roles,
  length ps = length roles →
  Forall2 (λ p p', p_id p' = p_id p ∧ p_name p' = p_name p ∧ p_score p' = p_score p)
    ps (zip_with (λ p role, set_role (Some role) p) ps roles).
Proof.
  induction ps as [| p ps IH]; intros [| role roles] Hlen; try discriminate Hlen;
    [constructor |].
  cbn. constructor; [done |]. apply IH. by injection Hlen.
Qed.


Lemma assign_roles_ok w roomId room shuffled :
  rooms w !! roomId = Some room →
  length (players room) = 4%nat →
  assign_roles w roomId shuffled =
    (mkWorld (<[roomId := assigned_room room shuffled]> (rooms w)) (uuid_calls w),
     Ok (round_number room + 1)).
Proof.
  intros Hroom Hlen. unfold assign_roles, assigned_room. rewrite Hroom.
  rewrite decide_False by (intros Hne; by apply Hne).
  by destruct (assign_loop _ _ _ _) as [[ps m] c].
Qed.

Lemma assign_roles_bad_count w roomId room shuffled :
  rooms w !! roomId = Some room →
  length (players room) ≠ 4%nat →
  assign_roles w roomId shuffled =
    (w, Raise (HTTPException 400 "Exactly 4 players are required to start the game")).
Proof.
  intros Hroom Hlen. unfold assign_roles. rewrite Hroom. by rewrite decide_True.
Qed.

Lemma assigned_room_spec room shuffled :
  length (players room) = 4%nat →
  shuffled ≡ₚ ROLES →
  let room' := assigned_room room shuffled in
  map p_role (players room') = map Some shuffled ∧
  Forall2 (λ p p', p_id p' = p_id p ∧ p_name p' = p_name p ∧ p_score p' = p_score p)
    (players room) (players room') ∧
  (∀ q, q ∈ players room' → p_role q = Some "Mantri" → mantri_id room' = Some (p_id q)) ∧
  (∀ q, q ∈ players room' → p_role q = Some "Chor" → chor_id room' = Some (p_id q)).
Proof.
  intros Hlen Hperm. unfold assigned_room.
  destruct (assign_loop _ _ _ _) as [[ps m] c] eqn:Hloop. cbn.
  assert (length (players room) = length shuffled) as Hlen'.
  { by rewrite Hperm, Hlen. }
  assert (NoDup shuffled) as Hnd by (rewrite Hperm; apply NoDup_ROLES).
  destruct (assign_loop_spec _ _ _ _ _ _ _ Hloop Hlen' Hnd) as (-> & Hm & _ & Hc & _).
  split_and!; [by apply zip_with_set_role_roles | by apply zip_with_set_role_frame
              | done | done].
Qed.

Lemma roles_dealt_holder ps role :
  roles_dealt ps → role ∈ ROLES → ∃ p, p ∈ ps ∧ p_role p = Some role.
Proof.
  unfold roles_dealt. intros Hdealt Hrole.
  assert (Some role ∈ map p_role ps) as Hin.
  { rewrite Hdealt. apply (list_elem_of_fmap_2 Some). done. }
  apply list_elem_of_fmap in Hin as (p & Hp & Hin). eauto.
Qed.

Lemma roles_dealt_has_role ps : roles_dealt ps → Forall has_role ps.
Proof.
  unfold roles_dealt. intros Hdealt. apply Forall_forall. intros p Hp.
  assert (p_role p ∈ map Some ROLES) as Hin.
  { rewrite <- Hdealt. by apply (list_elem_of_fmap_2 p_role). }
  apply list_elem_of_fmap in Hin as (role & Hrole & Hin). by exists role.
Qed.

Lemma roles_dealt_length ps : roles_dealt ps → length ps = 4%nat.
Proof.
  unfold roles_dealt. intros Hdealt. apply Permutation_length in Hdealt.
  rewrite !length_map in Hdealt. done.
Qed.

(** ** Membership *)


Section Membership.

Variable uuid4 : nat → string.

Lemma new_players_names calls names :
  map p_name (new_players uuid4 calls names) = names.
Proof.
  revert calls. induction names as [| name names IH]; intros calls; cbn;
    [done | by rewrite IH].
Qed.

Lemma new_players_length calls names :
  length (new_players uuid4 calls names) = length names.
Proof.
  revert calls. induction names as [| name names IH]; intros calls; cbn;
    [done | by rewrite IH].
Qed.

Lemma new_players_fresh calls names :
  Forall (λ p, p_role p = None ∧ p_score p = 0) (new_players uuid4 calls names).
Proof.
  revert calls. induction names as [| name names IH]; intros calls; cbn;
    constructor; [done | apply IH].
Qed.

Lemma join_loop_spec names : ∀ st,
  let news := new_players uuid4 (js_calls st) names in
  let k := (4 - length (players (js_room st)))%nat in
  join_loop uuid4 st names =
    mkJoinState (joined_room (js_room st) news)
                (js_added st ++ map id_name (take k news))
                (js_waitlisted st ++ map id_name (drop k news))
                (js_calls st + length names).
Proof.
  induction names as [| name names IH]; intros [room added waitlisted calls]; cbn.
  - unfold joined_room. rewrite take_nil, drop_nil, !app_nil_r, Nat.add_0_r.
    by destruct room.
  - unfold join_loop in IH.
    destruct (decide (length (players room) < 4)%nat) as [Hlt | Hge];
      rewrite IH; cbn; unfold joined_room; cbn.
    + rewrite length_app. cbn.
      replace (4 - length (players room))%nat
        with (S (4 - (length (players room) + 1)))%nat by lia.
      cbn. rewrite <- !app_assoc. cbn. f_equal. lia.
    + replace (4 - length (players room))%nat with 0%nat by lia.
      cbn. rewrite <- !app_assoc. cbn. f_equal. lia.
Qed.

Lemma join_multiple_players_ok w roomId room names :
  rooms w !! roomId = Some room →
  let news := new_players uuid4 (uuid_calls w) names in
  let k := (4 - length (players room))%nat in
  join_multiple_players uuid4 w roomId names =
    (mkWorld (<[roomId := joined_room room news]> (rooms w))
             (uuid_calls w + length names),
     Ok (mkJoinMultipleResponse (r_id room) (map id_name (take k news))
           (map id_name (drop k news)) "Players processed successfully")).
Proof.
  intros Hroom. cbn. unfold join_multiple_players. rewrite Hroom.
  rewrite join_loop_spec. reflexivity.
Qed.

Lemma joined_room_length room news :
  (length (players room) ≤ 4)%nat →
  length (players (joined_room room news))
  = ((length (players room) + length news) `min` 4)%nat.
Proof.
  intros Hle. unfold joined_room. cbn. rewrite length_app, length_take. lia.
Qed.

End Membership.

(** ** Role view and result view *)

Lemma view_role_loop_found ps p :
  p ∈ ps → NoDup (map p_id ps) →
  view_role_loop ps (p_id p) = Ok (mkRoleResponse (p_id p) (p_role p)).
Proof.
  induction ps as [| q ps IH]; intros Hin Hnd; [by apply elem_of_nil in Hin |].
  cbn in *. apply NoDup_cons in Hnd as [Hfresh Hnd].
  apply elem_of_cons in Hin as [-> | Hin]; [by rewrite decide_True |].
  rewrite decide_False; [by apply IH |].
  intros Heq. apply Hfresh. rewrite Heq. by apply (list_elem_of_fmap_2 p_id).
Qed.

Lemma view_role_loop_missing ps playerId :
  playerId ∉ map p_id ps →
  view_role_loop ps playerId = Raise (HTTPException 404 "Player not found").
Proof.
  induction ps as [| q ps IH]; intros Hnotin; [done |].
  cbn in *. apply not_elem_of_cons in Hnotin as [Hne Hnotin].
  rewrite decide_False by done. by apply IH.
Qed.

(** ** Leaderboard order *)

Lemma insert_desc_perm p l : insert_desc p l ≡ₚ p :: l.
Proof.
  induction l as [| q l IH]; cbn; [done |].
  destruct (decide _); [| done]. rewrite IH. apply perm_swap.
Qed.

Lemma sorted_by_score_desc_perm ps : sorted_by_score_desc ps ≡ₚ ps.
Proof.
  induction ps as [| p ps IH]; cbn; [done |].
  rewrite insert_desc_perm. by rewrite IH.
Qed.

Lemma insert_desc_sorted p l :
  StronglySorted (λ a b, score_ge (p_score a) (p_score b)) l →
  StronglySorted (λ a b, score_ge (p_score a) (p_score b)) (insert_desc p l).
Proof.
  induction 1 as [| q l Hsorted IH Hall]; cbn.
  - repeat constructor.
  - destruct (decide (p_score p < p_score q)) as [Hlt | Hge].
    + constructor; [done |]. rewrite insert_desc_perm.
      constructor; [unfold score_ge; lia | done].
    + constructor; [by constructor |].
      constructor; [unfold score_ge; lia |].
      eapply Forall_impl; [exact Hall |]. unfold score_ge. cbn. intros; lia.
Qed.

Lemma sorted_by_score_desc_sorted ps :
  StronglySorted (λ a b, score_ge (p_score a) (p_score b)) (sorted_by_score_desc ps).
Proof.
  induction ps as [| p ps IH]; cbn; [constructor | by apply insert_desc_sorted].
Qed.

Lemma insert_desc_stable s p l :
  filter (λ q, p_score q = s) (insert_desc p l)
  = filter (λ q, p_score q = s) (p :: l).
Proof.
  induction l as [| q l IH]; cbn; [done |].
  destruct (decide (p_score p < p_score q)) as [Hlt | Hge]; [| done].
  rewrite (filter_cons _ q), IH, !filter_cons.
  destruct (decide (p_score q = s)), (decide (p_score p = s)); try done. lia.
Qed.

Lemma sorted_by_score_desc_stable s ps :
  filter (λ q, p_score q = s) (sorted_by_score_desc ps)
  = filter (λ q, p_score q = s) ps.
Proof.
  unfold sorted_by_score_desc.
  induction ps as [| p ps IH]; cbn [foldr]; [done |].
  rewrite insert_desc_stable, !filter_cons. by rewrite IH.
Qed.

Lemma filter_score_head (p : Player) l :
  filter (λ q, p_score q = p_score p) (p :: l)
  = p :: filter (λ q, p_score q = p_score p) l.
Proof. by rewrite filter_cons, decide_True. Qed.

(** Descending order and stability leave no freedom: two arrangements that
    are both in descending order of score and list the players of each score
    in the same order are the same list.  So any stable descending sort, the
    one of Python's [sorted] included, computes [sorted_by_score_desc]. *)
Lemma stable_descending_unique l1 : ∀ l2,
  StronglySorted (λ a b, score_ge (p_score a) (p_score b)) l1 →
  StronglySorted (λ a b, score_ge (p_score a) (p_score b)) l2 →
  (∀ s, filter (λ q, p_score q = s) l1 = filter (λ q, p_score q = s) l2) →
  l1 = l2.
Proof.
  assert (∀ (p : Player) l l',
            StronglySorted (λ a b, score_ge (p_score a) (p_score b)) (p :: l) →
            (∀ s, filter (λ q, p_score q = s) (p :: l)
                  = filter (λ q, p_score q = s) l') →
            ∀ q, q ∈ l' → p_score q ≤ p_score p) as Hbound.
  { intros p l l' Hsorted Hfilter q Hq.
    assert (q ∈ p :: l) as Hin.
    { eapply (list_elem_of_filter (λ r, p_score r = p_score q)).
      rewrite Hfilter. by apply list_elem_of_filter. }
    apply StronglySorted_inv in Hsorted as [_ Hall].
    apply elem_of_cons in Hin as [-> | Hin]; [lia |].
    rewrite Forall_forall in Hall. by apply Hall. }
  induction l1 as [| p l1 IH]; intros [| q l2] Hs1 Hs2 Hfilter.
  - done.
  - specialize (Hfilter (p_score q)). by rewrite filter_score_head in Hfilter.
  - specialize (Hfilter (p_score p)). by rewrite filter_score_head in Hfilter.
  - assert (p_score q = p_score p) as Hscore.
    { apply Z.le_antisymm.
      - apply (Hbound p l1 (q :: l2) Hs1 Hfilter). by left.
      - apply (Hbound q l2 (p :: l1) Hs2); [by intros s; rewrite Hfilter | by left]. }
    pose proof (Hfilter (p_score p)) as Hhead.
    rewrite filter_score_head, <- Hscore, filter_score_head, Hscore in Hhead.
    injection Hhead as -> Htail. f_equal.
    apply StronglySorted_inv in Hs1 as [Hs1 _].
    apply StronglySorted_inv in Hs2 as [Hs2 _].
    apply IH; [done | done |]. intros s.
    destruct (decide (p_score q = s)) as [<- | Hne]; [done |].
    specialize (Hfilter s). by rewrite !filter_cons, !decide_False in Hfilter.
Qed.

Lemma sorted_by_score_desc_unique ps l :
  StronglySorted (λ a b, score_ge (p_score a) (p_score b)) l →
  (∀ s, filter (λ q, p_score q = s) l = filter (λ q, p_score q = s) ps) →
  l = sorted_by_score_desc ps.
Proof.
  intros Hsorted Hstable. apply stable_descending_unique;
    [done | apply sorted_by_score_desc_sorted |].
  intros s. by rewrite sorted_by_score_desc_stable.
Qed.

(** ** Executions: induction principle and room invariant *)

Section ExecutionFacts.

Variable uuid4 : nat → string.

Lemma serve_app w rqs1 rqs2 :
  serve uuid4 w (rqs1 ++ rqs2) =
    let '(log1, w1) := serve uuid4 w rqs1 in
    let '(log2, w2) := serve uuid4 w1 rqs2 in
    (log1 ++ log2, w2).
Proof.
  revert w. induction rqs1 as [| rq rqs1 IH]; intros w; cbn.
  - by destruct (serve uuid4 w rqs2).
  - destruct (handle uuid4 w rq) as [w' out]. rewrite IH.
    destruct (serve uuid4 w' rqs1) as [log1 w1].
    by destruct (serve uuid4 w1 rqs2).
Qed.

Lemma execution_nil : execution uuid4 [] init_world.
Proof. exists []. by split. Qed.

Lemma execution_snoc log w rq :
  execution uuid4 log w → valid_request rq →
  execution uuid4 (log ++ [(rq, (handle uuid4 w rq).2)]) (handle uuid4 w rq).1.
Proof.
  intros (rqs & Hvalid & Hserve) Hrq. exists (rqs ++ [rq]). split.
  - apply Forall_app. by split; [| constructor].
  - rewrite serve_app, Hserve. cbn. by destruct (handle uuid4 w rq).
Qed.

Lemma execution_rev_ind (P : list event → World → Prop) :
  P [] init_world →
  (∀ log w rq,
     execution uuid4 log w → P log w → valid_request rq →
     P (log ++ [(rq, (handle uuid4 w rq).2)]) (handle uuid4 w rq).1) →
  ∀ log w, execution uuid4 log w → P log w.
Proof.
  intros Hnil Hsnoc log w (rqs & Hvalid & Hserve).
  revert log w Hvalid Hserve. induction rqs as [| rq rqs IH] using rev_ind;
    intros log w Hvalid Hserve.
  - by injection Hserve as <- <-.
  - apply Forall_app in Hvalid as [Hvalid Hrq]. rewrite Forall_singleton in Hrq.
    rewrite serve_app in Hserve.
    destruct (serve uuid4 init_world rqs) as [log1 w1] eqn:Hserve1.
    cbn in Hserve. destruct (handle uuid4 w1 rq) as [w2 out] eqn:Hhandle.
    injection Hserve as <- <-.
    specialize (IH _ _ Hvalid eq_refl).
    assert (execution uuid4 log1 w1) as Hexec by (by exists rqs).
    specialize (Hsnoc _ _ rq Hexec IH Hrq). by rewrite Hhandle in Hsnoc.
Qed.

Lemma handle_world {A} (f : A → reply) (p : World * outcome A) :
  (prod_map id (outcome_map f) p).1 = p.1.
Proof. by destruct p. Qed.

Lemma handle_outcome {A} (f : A → reply) (p : World * outcome A) :
  (prod_map id (outcome_map f) p).2 = outcome_map f p.2.
Proof. by destruct p. Qed.

(** A request either leaves the directory alone or rebinds one room. *)
Lemma submit_guess_cases w roomId playerId guessed :
  map_Forall (λ _, room_inv) (rooms w) →
  (rooms w !! roomId = None ∧
   submit_guess w roomId playerId guessed
   = (w, Raise (HTTPException 404 "Room not found"))) ∨
  (∃ room, rooms w !! roomId = Some room ∧ mantri_id room ≠ Some playerId ∧
   submit_guess w roomId playerId guessed
   = (w, Raise (HTTPException 403 "Only Mantri can guess"))) ∨
  (∃ room, rooms w !! roomId = Some room ∧ mantri_id room = Some playerId ∧
   roles_assigned room = true ∧ roles_dealt (players room) ∧
   submit_guess w roomId playerId guessed =
     (mkWorld (<[roomId := guessed_room room guessed]> (rooms w)) (uuid_calls w),
      Ok (mkGuessResponse
            (if bool_decide (Some guessed = chor_id room) then "correct"
             else "incorrect")
            (chor_id room)))).
Proof.
  intros Hinv. destruct (rooms w !! roomId) as [room |] eqn:Hroom.
  - right. destruct (decide (mantri_id room = Some playerId)) as [Heq | Hne].
    + right. exists room. destruct (Hinv _ _ Hroom) as [_ Hphase].
      destruct (roles_assigned room); [| destruct Hphase; congruence].
      destruct Hphase as (Hdealt & _). split_and!; try done.
      apply submit_guess_ok; [done | by apply roles_dealt_has_role | done].
    + left. exists room. split_and!; try done. by eapply submit_guess_forbidden.
  - left. split; [done |]. unfold submit_guess. by rewrite Hroom.
Qed.

Lemma assign_roles_cases w roomId shuffled :
  (rooms w !! roomId = None ∧
   assign_roles w roomId shuffled = (w, Raise (HTTPException 404 "Room not found"))) ∨
  (∃ room, rooms w !! roomId = Some room ∧ length (players room) ≠ 4%nat ∧
   assign_roles w roomId shuffled =
     (w, Raise (HTTPException 400 "Exactly 4 players are required to start the game"))) ∨
  (∃ room, rooms w !! roomId = Some room ∧ length (players room) = 4%nat ∧
   assign_roles w roomId shuffled =
     (mkWorld (<[roomId := assigned_room room shuffled]> (rooms w)) (uuid_calls w),
      Ok (round_number room + 1))).
Proof.
  destruct (rooms w !! roomId) as [room |] eqn:Hroom.
  - right. destruct (decide (length (players room) = 4%nat)) as [Heq | Hne].
    + right. exists room. split_and!; try done. by apply assign_roles_ok.
    + left. exists room. split_and!; try done. by eapply assign_roles_bad_count.
  - left. split; [done |]. unfold assign_roles. by rewrite Hroom.
Qed.

Lemma join_multiple_players_cases w roomId names :
  (rooms w !! roomId = None ∧
   join_multiple_players uuid4 w roomId names
   = (w, Raise (HTTPException 404 "Room not found"))) ∨
  (∃ room, rooms w !! roomId = Some room ∧
   let news := new_players uuid4 (uuid_calls w) names in
   let k := (4 - length (players room))%nat in
   join_multiple_players uuid4 w roomId names =
     (mkWorld (<[roomId := joined_room room news]> (rooms w))
              (uuid_calls w + length names),
      Ok (mkJoinMultipleResponse (r_id room) (map id_name (take k news))
            (map id_name (drop k news)) "Players processed successfully"))).
Proof.
  destruct (rooms w !! roomId) as [room |] eqn:Hroom.
  - right. exists room. split; [done |]. by apply join_multiple_players_ok.
  - left. split; [done |]. unfold join_multiple_players. by rewrite Hroom.
Qed.

Lemma read_only_requests w roomId playerId :
  (get_players w roomId).1 = w ∧ (view_role w roomId playerId).1 = w ∧
  (result w roomId).1 = w ∧ (leaderboard w roomId).1 = w.
Proof.
  unfold get_players, view_role, result, leaderboard.
  destruct (rooms w !! roomId) as [room |]; [| done].
  by destruct (roles_assigned room), (guess_submitted room).
Qed.

Lemma room_inv_created roomName playerName c1 c2 :
  room_inv (mkRoom (uuid4 c1) roomName [mkPlayer (uuid4 c2) playerName None 0]
              [] false None None false None 0).
Proof. split; cbn; [lia |]. split_and!; try done. by repeat constructor. Qed.

Lemma room_inv_joined room news :
  room_inv room → Forall (λ p, p_role p = None ∧ p_score p = 0) news →
  room_inv (joined_room room news).
Proof.
  intros [Hlen Hphase] Hnews. split.
  - rewrite joined_room_length by done. lia.
  - unfold joined_room. cbn. destruct (roles_assigned room).
    + destruct Hphase as (Hdealt & Hm & Hc).
      rewrite (roles_dealt_length _ Hdealt). cbn. by rewrite app_nil_r.
    + destruct Hphase as (Hm & Hc & Hg & Hnone). split_and!; try done.
      apply Forall_app. split; [done |]. apply Forall_take.
      eapply Forall_impl; [exact Hnews |]. by intros p [? _].
Qed.

Lemma room_inv_assigned room shuffled :
  length (players room) = 4%nat → shuffled ≡ₚ ROLES →
  room_inv (assigned_room room shuffled).
Proof.
  intros Hlen Hperm.
  destruct (assigned_room_spec room shuffled Hlen Hperm) as (Hroles & Hframe & Hm & Hc).
  assert (roles_dealt (players (assigned_room room shuffled))) as Hdealt.
  { unfold roles_dealt. rewrite Hroles. by apply fmap_Permutation. }
  split.
  - by rewrite (roles_dealt_length _ Hdealt).
  - replace (roles_assigned (assigned_room room shuffled)) with true
      by (unfold assigned_room; by destruct (assign_loop _ _ _ _) as [[? ?] ?]).
    by split_and!.
Qed.

Lemma add_score_roles f ps :
  map p_role (map (λ p, add_score (f p) p) ps) = map p_role ps.
Proof. rewrite map_map. by apply map_ext. Qed.

Lemma room_inv_guessed room guessed :
  room_inv room → roles_assigned room = true → room_inv (guessed_room room guessed).
Proof.
  intros [Hlen Hphase] Hassigned. rewrite Hassigned in Hphase.
  split; unfold guessed_room; cbn.
  - by rewrite length_map.
  - rewrite Hassigned. destruct Hphase as (Hdealt & Hm & Hc). split_and!.
    + unfold roles_dealt. by rewrite add_score_roles.
    + intros q (p & -> & Hp)%list_elem_of_fmap Hrole. by apply (Hm p).
    + intros q (p & -> & Hp)%list_elem_of_fmap Hrole. by apply (Hc p).
Qed.

Lemma handle_room_inv w rq :
  valid_request rq →
  map_Forall (λ _, room_inv) (rooms w) →
  map_Forall (λ _, room_inv) (rooms (handle uuid4 w rq).1).
Proof.
  intros Hvalid Hinv.
  destruct rq as [roomName playerName | roomId names | roomId | roomId shuffled
                 | roomId playerId | roomId playerId guessed | roomId | roomId];
    cbn [handle]; rewrite handle_world.
  - cbn. apply map_Forall_insert_2; [apply room_inv_created | done].
  - destruct (join_multiple_players_cases w roomId names)
      as [[_ ->] | (room & Hroom & ->)]; [done |].
    cbn. apply map_Forall_insert_2; [| done].
    apply room_inv_joined; [by eapply Hinv | apply new_players_fresh].
  - by rewrite (proj1 (read_only_requests w roomId EmptyString)).
  - destruct (assign_roles_cases w roomId shuffled)
      as [[_ ->] | [(room & _ & _ & ->) | (room & Hroom & Hlen & ->)]]; [done.. |].
    cbn. apply map_Forall_insert_2; [| done]. by apply room_inv_assigned.
  - by rewrite (proj1 (proj2 (read_only_requests w roomId playerId))).
  - destruct (submit_guess_cases w roomId playerId guessed Hinv)
      as [[_ ->] | [(room & _ & _ & ->) | (room & Hroom & _ & Hassigned & _ & ->)]];
      [done.. |].
    cbn. apply map_Forall_insert_2; [| done].
    apply room_inv_guessed; [by eapply Hinv | done].
  - by rewrite (proj1 (proj2 (proj2 (read_only_requests w roomId EmptyString)))).
  - by rewrite (proj2 (proj2 (proj2 (read_only_requests w roomId EmptyString)))).
Qed.

Lemma execution_room_inv log w :
  execution uuid4 log w → map_Forall (λ _, room_inv) (rooms w).
Proof.
  revert log w. apply execution_rev_ind.
  - apply map_Forall_empty.
  - intros log w rq _ IH Hrq. by apply handle_room_inv.
Qed.

End ExecutionFacts.

(** ** The flags of a room and the history of requests *)

Lemma round_assigned_snoc roomId log ev :
  ¬ assign_event roomId ev → round_assigned roomId log →
  round_assigned roomId (log ++ [ev]).
Proof.
  intros Hev (l1 & a & l2 & -> & Ha & Hl2). exists l1, a, (l2 ++ [ev]).
  split_and!; [by rewrite <- app_assoc | done |].
  apply Forall_app. by split; [| constructor].
Qed.

Lemma round_assigned_new roomId log ev :
  assign_event roomId ev → round_assigned roomId (log ++ [ev]).
Proof. intros Hev. exists log, ev, []. by split_and!. Qed.

Lemma guess_event_not_assign roomId roomId' ev :
  guess_event roomId ev → ¬ assign_event roomId' ev.
Proof. intros (? & ? & ? & ->) (? & ? & [=]). Qed.

Lemma round_guessed_snoc roomId log ev :
  ¬ assign_event roomId ev → round_guessed roomId log →
  round_guessed roomId (log ++ [ev]).
Proof.
  intros Hev (l1 & a & l2 & g & l3 & -> & Ha & Hg & Hrest).
  exists l1, a, l2, g, (l3 ++ [ev]). split_and!; try done.
  - by repeat (rewrite <- app_assoc || rewrite <- app_comm_cons).
  - rewrite app_assoc. apply Forall_app. by split; [| constructor].
Qed.

Lemma round_guessed_new roomId log ev :
  guess_event roomId ev → round_assigned roomId log →
  round_guessed roomId (log ++ [ev]).
Proof.
  intros Hev (l1 & a & l2 & -> & Ha & Hl2). exists l1, a, l2, ev, [].
  split_and!; try done.
  - by repeat (rewrite <- app_assoc || rewrite <- app_comm_cons).
  - by rewrite app_nil_r.
Qed.

Lemma history_inv_same log w ev :
  history_inv log w → (∀ roomId, ¬ assign_event roomId ev) →
  history_inv (log ++ [ev]) w.
Proof.
  intros Hinv Hev roomId room Hroom. destruct (Hinv _ _ Hroom) as [H1 H2].
  split; intros Hflag.
  - apply round_assigned_snoc; auto.
  - apply round_guessed_snoc; auto.
Qed.

Lemma history_inv_rebind log w ev roomId room' calls :
  history_inv log w → (∀ rid, ¬ assign_event rid ev) →
  (roles_assigned room' = true →
   ∃ room, rooms w !! roomId = Some room ∧ roles_assigned room = true) →
  (guess_submitted room' = true →
   ∃ room, rooms w !! roomId = Some room ∧ guess_submitted room = true) →
  history_inv (log ++ [ev]) (mkWorld (<[roomId := room']> (rooms w)) calls).
Proof.
  intros Hinv Hev Hroles Hguess rid room0. cbn.
  destruct (decide (roomId = rid)) as [<- | Hne].
  - rewrite lookup_insert_eq. intros [= <-]. split; intros Hflag.
    + destruct (Hroles Hflag) as (room & Hroom & Hflag').
      apply round_assigned_snoc; [done |]. by apply (Hinv _ _ Hroom).
    + destruct (Hguess Hflag) as (room & Hroom & Hflag').
      apply round_guessed_snoc; [done |]. by apply (Hinv _ _ Hroom).
  - rewrite lookup_insert_ne by done. intros Hroom.
    by apply (history_inv_same log w ev Hinv Hev rid).
Qed.

Section History.

Variable uuid4 : nat → string.

Lemma raise_not_assign rq e : ∀ roomId, ¬ assign_event roomId (rq, Raise e).
Proof. intros roomId (? & ? & [=]). Qed.

Lemma handle_history_inv log w rq :
  map_Forall (λ _, room_inv) (rooms w) →
  history_inv log w →
  history_inv (log ++ [(rq, (handle uuid4 w rq).2)]) (handle uuid4 w rq).1.
Proof.
  intros Hrooms Hinv.
  destruct rq as [roomName playerName | roomId names | roomId | roomId shuffled
                 | roomId playerId | roomId playerId guessed | roomId | roomId];
    cbn [handle]; rewrite handle_world, handle_outcome.
  - cbn. apply history_inv_rebind; [done | | done | done].
    intros rid (? & ? & [=]).
  - destruct (join_multiple_players_cases uuid4 w roomId names)
      as [[_ ->] | (room & Hroom & ->)]; cbn.
    + apply history_inv_same; [done | apply raise_not_assign].
    + apply history_inv_rebind; [done | | by exists room..].
      intros rid (? & ? & [=]).
  - rewrite (proj1 (read_only_requests w roomId EmptyString)).
    apply history_inv_same; [done |]. intros rid (? & ? & [=]).
  - destruct (assign_roles_cases w roomId shuffled)
      as [[_ ->] | [(room & _ & _ & ->) | (room & Hroom & Hlen & ->)]]; cbn.
    + apply history_inv_same; [done | apply raise_not_assign].
    + apply history_inv_same; [done | apply raise_not_assign].
    + intros rid room0. cbn. destruct (decide (roomId = rid)) as [<- | Hne].
      * rewrite lookup_insert_eq. intros [= <-]. split.
        -- intros _. apply round_assigned_new. by eexists _, _.
        -- unfold assigned_room. by destruct (assign_loop _ _ _ _) as [[? ?] ?].
      * rewrite lookup_insert_ne by done. intros Hroom0.
        destruct (Hinv _ _ Hroom0) as [H1 H2].
        assert (¬ assign_event rid
                  (AssignRoles roomId shuffled,
                   Ok (AssignRolesReply (round_number room + 1)))) as Hev.
        { intros (? & ? & [=]). congruence. }
        split; intros Hflag;
          [apply round_assigned_snoc | apply round_guessed_snoc]; auto.
  - rewrite (proj1 (proj2 (read_only_requests w roomId playerId))).
    apply history_inv_same; [done |]. intros rid (? & ? & [=]).
  - destruct (submit_guess_cases w roomId playerId guessed Hrooms)
      as [[_ ->] | [(room & _ & _ & ->) | (room & Hroom & _ & Hassigned & _ & ->)]];
      cbn.
    + apply history_inv_same; [done | apply raise_not_assign].
    + apply history_inv_same; [done | apply raise_not_assign].
    + set (ev := (SubmitGuess roomId playerId guessed, _)).
      assert (guess_event roomId ev) as Hev by (by eexists _, _, _).
      intros rid room0. cbn. destruct (decide (roomId = rid)) as [<- | Hne].
      * rewrite lookup_insert_eq. intros [= <-].
        destruct (Hinv _ _ Hroom) as [H1 _]. split; intros _.
        -- apply round_assigned_snoc; [by eapply guess_event_not_assign | auto].
        -- apply round_guessed_new; auto.
      * rewrite lookup_insert_ne by done. intros Hroom0.
        destruct (Hinv _ _ Hroom0) as [H1 H2].
        split; intros Hflag;
          [apply round_assigned_snoc | apply round_guessed_snoc]; auto;
          by eapply guess_event_not_assign.
  - rewrite (proj1 (proj2 (proj2 (read_only_requests w roomId EmptyString)))).
    apply history_inv_same; [done |]. intros rid (? & ? & [=]).
  - rewrite (proj2 (proj2 (proj2 (read_only_requests w roomId EmptyString)))).
    apply history_inv_same; [done |]. intros rid (? & ? & [=]).
Qed.

Lemma execution_history_inv log w : execution uuid4 log w → history_inv log w.
Proof.
  revert log w. apply execution_rev_ind.
  - intros roomId room Hroom. cbn in Hroom. by rewrite lookup_empty in Hroom.
  - intros log w rq Hexec IH _. apply handle_history_inv; [| done].
    by eapply execution_room_inv.
Qed.

End History.

(** ** Identifiers are unique within a room *)

Section Identifiers.

Variable uuid4 : nat → string.
Hypothesis uuid4_inj : Inj (=) (=) uuid4.

Lemma ids_inv_mono calls calls' r :
  (calls ≤ calls')%nat → ids_inv uuid4 calls r → ids_inv uuid4 calls' r.
Proof.
  intros Hle [Hnd Hall]. split; [done |].
  eapply Forall_impl; [exact Hall |]. intros i (k & Hk & ->). exists k. split; [lia | done].
Qed.

Lemma new_players_ids calls names :
  map p_id (new_players uuid4 calls names) = map uuid4 (seq calls (length names)).
Proof.
  revert calls. induction names as [| name names IH]; intros calls; cbn;
    [done | by rewrite IH].
Qed.

Lemma room_ids_joined room news :
  room_ids (joined_room room news) ≡ₚ room_ids room ++ map p_id news.
Proof.
  unfold room_ids, joined_room. cbn.
  rewrite <- (take_drop (4 - length (players room)) news) at 3.
  rewrite !map_app.
  generalize (map p_id (players room)) (map p_id (waitlist room))
    (map p_id (take (4 - length (players room)) news))
    (map p_id (drop (4 - length (players room)) news)).
  intros l1 l2 l3 l4. rewrite <- !app_assoc. f_equiv.
  rewrite !app_assoc. f_equiv. apply Permutation_app_comm.
Qed.

Lemma ids_inv_joined calls room names :
  ids_inv uuid4 calls room →
  ids_inv uuid4 (calls + length names)
    (joined_room room (new_players uuid4 calls names)).
Proof.
  intros [Hnd Hall]. unfold ids_inv.
  rewrite room_ids_joined, new_players_ids. split.
  - apply NoDup_app. split_and!; [done | |].
    + intros i Hold Hnew.
      rewrite Forall_forall in Hall. destruct (Hall _ Hold) as (k & Hk & ->).
      apply list_elem_of_fmap in Hnew as (j & Heq & Hj).
      apply uuid4_inj in Heq as ->. apply elem_of_seq in Hj. lia.
    + apply (NoDup_fmap_2 uuid4). apply NoDup_seq.
  - apply Forall_app. split.
    + eapply Forall_impl; [exact Hall |]. intros i (k & Hk & ->).
      exists k. split; [lia | done].
    + apply Forall_forall. intros i Hi.
      apply list_elem_of_fmap in Hi as (j & -> & Hj). apply elem_of_seq in Hj. exists j. split; [lia | done].
Qed.

Lemma assign_loop_ids ps : ∀ roles mantri chor,
  map p_id (assign_loop ps roles mantri chor).1.1 = map p_id ps.
Proof.
  induction ps as [| p ps IH]; intros [| role roles] mantri chor; cbn; try done.
  specialize (IH roles (if decide (role = "Mantri") then Some (p_id p) else mantri)
                 (if decide (role = "Chor") then Some (p_id p) else chor)).
  destruct (assign_loop ps roles _ _) as [[rest m] c]. cbn in *. by rewrite IH.
Qed.

Lemma room_ids_assigned room shuffled :
  room_ids (assigned_room room shuffled) = room_ids room.
Proof.
  unfold room_ids, assigned_room.
  pose proof (assign_loop_ids (players room) shuffled (mantri_id room) (chor_id room))
    as Hids.
  destruct (assign_loop _ _ _ _) as [[ps m] c]. cbn in *.
  by rewrite !map_app, Hids.
Qed.

Lemma room_ids_guessed room guessed :
  room_ids (guessed_room room guessed) = room_ids room.
Proof.
  unfold room_ids, guessed_room. cbn. rewrite !map_app, map_map. done.
Qed.

Lemma handle_ids_inv w rq :
  valid_request rq →
  map_Forall (λ _, room_inv) (rooms w) →
  map_Forall (λ _, ids_inv uuid4 (uuid_calls w)) (rooms w) →
  map_Forall (λ _, ids_inv uuid4 (uuid_calls (handle uuid4 w rq).1))
             (rooms (handle uuid4 w rq).1).
Proof.
  intros Hvalid Hrooms Hinv.
  destruct rq as [roomName playerName | roomId names | roomId | roomId shuffled
                 | roomId playerId | roomId playerId guessed | roomId | roomId];
    cbn [handle]; rewrite handle_world.
  - cbn. apply map_Forall_insert_2.
    + split; cbn.
      * apply NoDup_singleton.
      * constructor; [| done]. exists (uuid_calls w). split; [lia | done].
    + eapply map_Forall_impl; [exact Hinv |]. intros ? r. cbn. apply ids_inv_mono. lia.
  - destruct (join_multiple_players_cases uuid4 w roomId names)
      as [[_ ->] | (room & Hroom & ->)]; [done |].
    cbn. apply map_Forall_insert_2.
    + apply ids_inv_joined. by eapply Hinv.
    + eapply map_Forall_impl; [exact Hinv |]. intros ? r. cbn. apply ids_inv_mono. lia.
  - by rewrite (proj1 (read_only_requests w roomId EmptyString)).
  - destruct (assign_roles_cases w roomId shuffled)
      as [[_ ->] | [(room & _ & _ & ->) | (room & Hroom & Hlen & ->)]]; [done.. |].
    cbn. apply map_Forall_insert_2; [| done].
    unfold ids_inv. rewrite room_ids_assigned. by eapply Hinv.
  - by rewrite (proj1 (proj2 (read_only_requests w roomId playerId))).
  - destruct (submit_guess_cases w roomId playerId guessed Hrooms)
      as [[_ ->] | [(room & _ & _ & ->) | (room & Hroom & _ & _ & _ & ->)]];
      [done.. |].
    cbn. apply map_Forall_insert_2; [| done].
    unfold ids_inv. rewrite room_ids_guessed. by eapply Hinv.
  - by rewrite (proj1 (proj2 (proj2 (read_only_requests w roomId EmptyString)))).
  - by rewrite (proj2 (proj2 (proj2 (read_only_requests w roomId EmptyString)))).
Qed.

Lemma execution_ids_inv log w :
  execution uuid4 log w →
  map_Forall (λ _, ids_inv uuid4 (uuid_calls w)) (rooms w).
Proof.
  revert log w. apply execution_rev_ind.
  - apply map_Forall_empty.
  - intros log w rq Hexec IH Hrq. apply handle_ids_inv; [done | | done].
    by eapply execution_room_inv.
Qed.

(** In a reachable world the active players of a room have distinct ids. *)
Lemma reachable_players_NoDup w roomId room :
  reachable uuid4 w → rooms w !! roomId = Some room →
  NoDup (map p_id (players room)).
Proof.
  intros [log Hexec] Hroom.
  destruct (execution_ids_inv _ _ Hexec _ _ Hroom) as [Hnd _].
  unfold room_ids in Hnd. rewrite map_app in Hnd.
  by apply NoDup_app in Hnd as (? & _).
Qed.

End Identifiers.

(** ** Rooms of reachable worlds *)

Lemma reachable_room_inv uuid4 w roomId room :
  reachable uuid4 w → rooms w !! roomId = Some room → room_inv room.
Proof.
  intros [log Hexec] Hroom. by apply (execution_room_inv _ _ _ Hexec roomId).
Qed.

Lemma reachable_active_players uuid4 w roomId room :
  reachable uuid4 w → rooms w !! roomId = Some room →
  (length (players room) ≤ 4)%nat.
Proof. intros Hreach Hroom. by destruct (reachable_room_inv _ _ _ _ Hreach Hroom). Qed.

(** Once [roles_assigned] is set, the room has exactly 4 active players, the
    four roles are dealt once each, and the recorded Mantri and Chor are
    the holders of those roles. *)
Lemma reachable_roles_assigned uuid4 w roomId room :
  reachable uuid4 w → rooms w !! roomId = Some room →
  roles_assigned room = true →
  length (players room) = 4%nat ∧ roles_dealt (players room) ∧
  Forall has_role (players room) ∧
  (∃ p, p ∈ players room ∧ p_role p = Some "Mantri" ∧ mantri_id room = Some (p_id p)) ∧
  (∃ p, p ∈ players room ∧ p_role p = Some "Chor" ∧ chor_id room = Some (p_id p)).
Proof.
  intros Hreach Hroom Hassigned.
  destruct (reachable_room_inv _ _ _ _ Hreach Hroom) as [_ Hphase].
  rewrite Hassigned in Hphase. destruct Hphase as (Hdealt & Hm & Hc).
  split_and!; [by apply roles_dealt_length | done | by apply roles_dealt_has_role | |].
  - destruct (roles_dealt_holder _ "Mantri" Hdealt) as (p & Hp & Hrole);
      [compute_done |]. exists p. auto.
  - destruct (roles_dealt_holder _ "Chor" Hdealt) as (p & Hp & Hrole);
      [compute_done |]. exists p. auto.
Qed.

(** A recorded Mantri means that roles are assigned. *)
Lemma reachable_mantri_recorded uuid4 w roomId room playerId :
  reachable uuid4 w → rooms w !! roomId = Some room →
  mantri_id room = Some playerId → roles_assigned room = true.
Proof.
  intros Hreach Hroom Hmantri.
  destruct (reachable_room_inv _ _ _ _ Hreach Hroom) as [_ Hphase].
  destruct (roles_assigned room); [done |]. destruct Hphase. congruence.
Qed.

(** An accepted guess means that roles are assigned. *)
Lemma reachable_guess_submitted uuid4 w roomId room :
  reachable uuid4 w → rooms w !! roomId = Some room →
  guess_submitted room = true → roles_assigned room = true.
Proof.
  intros Hreach Hroom Hguess.
  destruct (reachable_room_inv _ _ _ _ Hreach Hroom) as [_ Hphase].
  destruct (roles_assigned room); [done |]. destruct Hphase as (_ & _ & ? & _).
  congruence.
Qed.

(** ** Properties of the operations *)

Lemma total_score_add_scores f ps :
  total_score (map (λ p, add_score (f p) p) ps)
  = total_score ps + foldr (λ p acc, f p + acc) 0 ps.
Proof.
  unfold total_score. induction ps as [| p ps IH]; cbn; [done | rewrite IH; lia].
Qed.

Lemma delta_sum_roles correct ps :
  foldr (λ p acc, player_delta correct p + acc) 0 ps
  = foldr (λ role acc, table_delta correct (default EmptyString role) + acc) 0
      (map p_role ps).
Proof. induction ps as [| p ps IH]; cbn; [done | by rewrite IH]. Qed.

Lemma delta_sum_perm correct (l1 l2 : list (option string)) :
  l1 ≡ₚ l2 →
  foldr (λ role acc, table_delta correct (default EmptyString role) + acc) 0 l1
  = foldr (λ role acc, table_delta correct (default EmptyString role) + acc) 0 l2.
Proof. induction 1; cbn; lia. Qed.

Lemma roles_dealt_delta_sum correct ps :
  roles_dealt ps → foldr (λ p acc, player_delta correct p + acc) 0 ps = 2300.
Proof.
  intros Hdealt. rewrite delta_sum_roles, (delta_sum_perm _ _ _ Hdealt).
  by destruct correct.
Qed.





(** C10: in a room in which the four roles are dealt exactly once each, a
    successful [submit_guess] raises the sum of the active players' scores
    by exactly 2300 whatever the guess, and leaves the waitlist as it was. *)
Theorem submit_guess_total_score w roomId room playerId guessed :
  rooms w !! roomId = Some room →
  roles_dealt (players room) →
  mantri_id room = Some playerId →
  ∃ w' resp room',
    submit_guess w roomId playerId guessed = (w', Ok resp) ∧
    rooms w' !! roomId = Some room' ∧
    total_score (players room') = total_score (players room) + 2300 ∧
    waitlist room' = waitlist room.
Proof.
  intros Hroom Hdealt Hmantri.
  eexists _, _, (guessed_room room guessed). split_and!.
  - apply submit_guess_ok; [done | by apply roles_dealt_has_role | done].
  - cbn. by rewrite lookup_insert_eq.
  - unfold guessed_room. cbn.
    by rewrite total_score_add_scores, roles_dealt_delta_sum.
  - reflexivity.
Qed.

Lemma submit_guess_total_score_witness :
  ∃ w' resp room',
    submit_guess (world_of demo_room_assigned 6) "u1" "u2" "u0" = (w', Ok resp) ∧
    rooms w' !! "u1" = Some room' ∧
    total_score (players room') = 2300 ∧
    waitlist room' = [mkPlayer "u5" "Esha" None 0].
Proof.
  apply (submit_guess_total_score (world_of demo_room_assigned 6) "u1"
           demo_room_assigned "u2" "u0").
  - vm_compute. reflexivity.
  - unfold roles_dealt. vm_compute. reflexivity.
  - reflexivity.
Defined.

(** C2: with exactly 4 active players and [shuffled] a rearrangement of the
    four role names, [assign_roles] succeeds; the active players keep their
    order, ids, names and scores and receive the roles of [shuffled] in that
    order, so each of Raja, Mantri, Chor and Sipahi is held exactly once;
    [mantri_id] and [chor_id] are the ids of the holders of Mantri and Chor;
    [roles_assigned] becomes true, [guess_submitted] false, and
    [round_number] grows by exactly 1. *)
Theorem assign_roles_deals_permutation w roomId room shuffled :
  rooms w !! roomId = Some room →
  length (players room) = 4%nat →
  shuffled ≡ₚ ROLES →
  ∃ w' room',
    assign_roles w roomId shuffled = (w', Ok (round_number room + 1)) ∧
    rooms w' !! roomId = Some room' ∧
    map p_role (players room') = map Some shuffled ∧
    map p_role (players room') ≡ₚ map Some ROLES ∧
    Forall2 (λ p p', p_id p' = p_id p ∧ p_name p' = p_name p ∧ p_score p' = p_score p)
      (players room) (players room') ∧
    (∃ p, p ∈ players room' ∧ p_role p = Some "Mantri") ∧
    (∀ p, p ∈ players room' → p_role p = Some "Mantri" →
          mantri_id room' = Some (p_id p)) ∧
    (∃ p, p ∈ players room' ∧ p_role p = Some "Chor") ∧
    (∀ p, p ∈ players room' → p_role p = Some "Chor" →
          chor_id room' = Some (p_id p)) ∧
    roles_assigned room' = true ∧
    guess_submitted room' = false ∧
    round_number room' = round_number room + 1.
Proof.
  intros Hroom Hlen Hperm.
  destruct (assigned_room_spec room shuffled Hlen Hperm) as (Hroles & Hframe & Hm & Hc).
  assert (roles_dealt (players (assigned_room room shuffled))) as Hdealt.
  { unfold roles_dealt. rewrite Hroles. by apply fmap_Permutation. }
  eexists _, (assigned_room room shuffled). split_and!; try done.
  - by apply assign_roles_ok.
  - cbn. by rewrite lookup_insert_eq.
  - apply roles_dealt_holder; [done | compute_done].
  - apply roles_dealt_holder; [done | compute_done].
  - unfold assigned_room. by destruct (assign_loop _ _ _ _) as [[? ?] ?].
  - unfold assigned_room. by destruct (assign_loop _ _ _ _) as [[? ?] ?].
  - unfold assigned_room. by destruct (assign_loop _ _ _ _) as [[? ?] ?].
Qed.

Lemma assign_roles_deals_permutation_witness :
  ∃ w' room',
    assign_roles (world_of demo_room_full 6) "u1" ["Chor"; "Sipahi"; "Mantri"; "Raja"]
    = (w', Ok 1) ∧
    rooms w' !! "u1" = Some room' ∧
    map p_role (players room') = [Some "Chor"; Some "Sipahi"; Some "Mantri"; Some "Raja"] ∧
    mantri_id room' = Some "u3" ∧ chor_id room' = Some "u0".
Proof.
  destruct (assign_roles_deals_permutation (world_of demo_room_full 6) "u1"
              demo_room_full ["Chor"; "Sipahi"; "Mantri"; "Raja"])
    as (w' & room' & Hcall & Hroom' & Hroles & _).
  - vm_compute. reflexivity.
  - reflexivity.
  - compute_done.
  - exists w', room'. split_and!; [exact Hcall | exact Hroom' | exact Hroles | |].
    + vm_compute in Hcall. injection Hcall as <-. vm_compute in Hroom'.
      injection Hroom' as <-. reflexivity.
    + vm_compute in Hcall. injection Hcall as <-. vm_compute in Hroom'.
      injection Hroom' as <-. reflexivity.
Defined.

(** C3 (as the code has it): a successful [assign_roles] leaves
    [guessed_player_id] as it was; only [guess_submitted] is reset, and the
    stored guess stays until the next [submit_guess] overwrites it. *)
Theorem assign_roles_keeps_guessed_player_id w roomId room shuffled w' round :
  rooms w !! roomId = Some room →
  assign_roles w roomId shuffled = (w', Ok round) →
  ∃ room',
    rooms w' !! roomId = Some room' ∧
    guessed_player_id room' = guessed_player_id room ∧
    guess_submitted room' = false.
Proof.
  intros Hroom Hcall.
  destruct (assign_roles_cases w roomId shuffled)
    as [[_ Heq] | [(room0 & _ & _ & Heq) | (room0 & Hroom0 & Hlen & Heq)]];
    rewrite Heq in Hcall; try discriminate Hcall.
  assert (room0 = room) as -> by congruence.
  injection Hcall as <- _. exists (assigned_room room shuffled). split_and!.
  - cbn. by rewrite lookup_insert_eq.
  - unfold assigned_room. by destruct (assign_loop _ _ _ _) as [[? ?] ?].
  - unfold assigned_room. by destruct (assign_loop _ _ _ _) as [[? ?] ?].
Qed.

Lemma assign_roles_keeps_guessed_player_id_witness :
  ∃ room',
    rooms (assign_roles demo_world "u1" ROLES).1 !! "u1" = Some room' ∧
    guessed_player_id room' = Some "u3" ∧
    guess_submitted room' = false.
Proof.
  apply (assign_roles_keeps_guessed_player_id demo_world "u1" demo_room_guessed
           ROLES _ 2).
  - vm_compute. reflexivity.
  - vm_compute. reflexivity.
Defined.

(** C3 as stated does not hold: in the sample session, whose round has been
    played with the guess "u3", a further successful [assign_roles] leaves
    that guess stored in the room. *)
Lemma assign_roles_clears_guess_counterexample :
  ¬ (∀ (uuid4 : nat → string) w roomId shuffled w' round room',
       reachable uuid4 w → shuffled ≡ₚ ROLES →
       assign_roles w roomId shuffled = (w', Ok round) →
       rooms w' !! roomId = Some room' →
       guessed_player_id room' = None).
Proof.
  intros Hclaim.
  assert (reachable demo_uuid4 demo_world) as Hreach.
  { exists demo_log, demo_requests. split.
    - repeat constructor.
    - unfold demo_log, demo_world. by destruct (serve _ _ _). }
  specialize (Hclaim demo_uuid4 demo_world "u1" ROLES
                (assign_roles demo_world "u1" ROLES).1 2
                (assigned_room demo_room_guessed ROLES) Hreach).
  discriminate Hclaim; [done | vm_compute; reflexivity..].
Qed.

(** C5: when the number of active players is not exactly 4, [assign_roles]
    raises the 400 error and hands back the very world it was given: no
    room, role, id, flag, round number or score has changed. *)
Theorem assign_roles_requires_exactly_four w roomId room shuffled :
  rooms w !! roomId = Some room →
  length (players room) ≠ 4%nat →
  ∃ e w',
    assign_roles w roomId shuffled = (w', Raise e) ∧ InvalidState e ∧
    w' = w ∧ rooms w' !! roomId = Some room.
Proof.
  intros Hroom Hlen. eexists _, w. split_and!; [| by eexists | done | done].
  by eapply assign_roles_bad_count.
Qed.

Lemma assign_roles_requires_exactly_four_witness :
  ∃ e w',
    assign_roles (world_of demo_room_open 2) "u1" ROLES = (w', Raise e) ∧
    InvalidState e ∧ w' = world_of demo_room_open 2 ∧
    rooms w' !! "u1" = Some demo_room_open.
Proof.
  apply (assign_roles_requires_exactly_four (world_of demo_room_open 2) "u1"
           demo_room_open ROLES).
  - vm_compute. reflexivity.
  - cbn. lia.
Defined.

(** C4: [join_multiple_players] on an unknown room raises the 404 error and
    changes nothing.  On an existing room it creates one player per name, in
    the order given; the first [4 - len(players)] of them are appended to the
    active players and reported as added, all the later ones are appended to
    the waitlist and reported as waitlisted; a room that had at most 4 active
    players ends with [min(4, before + names)] of them; the players already
    in the room, and the role state of the room, are untouched. *)
Theorem join_multiple_fill_then_overflow uuid4 w roomId names :
  (rooms w !! roomId = None →
   ∃ e, join_multiple_players uuid4 w roomId names = (w, Raise e) ∧ NotFound e) ∧
  (∀ room, rooms w !! roomId = Some room →
     let news := new_players uuid4 (uuid_calls w) names in
     let k := (4 - length (players room))%nat in
     ∃ w' resp room',
       join_multiple_players uuid4 w roomId names = (w', Ok resp) ∧
       rooms w' !! roomId = Some room' ∧
       map p_name news = names ∧
       Forall (λ p, p_role p = None ∧ p_score p = 0) news ∧
       players room' = players room ++ take k news ∧
       waitlist room' = waitlist room ++ drop k news ∧
       jmr_added resp = map id_name (take k news) ∧
       jmr_waitlisted resp = map id_name (drop k news) ∧
       ((length (players room) ≤ 4)%nat →
        length (players room')
        = ((length (players room) + length names) `min` 4)%nat) ∧
       roles_assigned room' = roles_assigned room ∧
       mantri_id room' = mantri_id room ∧
       chor_id room' = chor_id room ∧
       guess_submitted room' = guess_submitted room ∧
       guessed_player_id room' = guessed_player_id room ∧
       round_number room' = round_number room).
Proof.
  split.
  - intros Hroom. eexists. split; [| by eexists].
    unfold join_multiple_players. by rewrite Hroom.
  - intros room Hroom news k.
    eexists _, _, (joined_room room news). split_and!; try done.
    + by apply join_multiple_players_ok.
    + cbn. by rewrite lookup_insert_eq.
    + apply new_players_names.
    + apply new_players_fresh.
    + reflexivity.
    + reflexivity.
    + intros Hle. rewrite joined_room_length by done.
      unfold news. by rewrite new_players_length.
Qed.

Lemma join_multiple_fill_then_overflow_witness :
  (∃ e, join_multiple_players demo_uuid4 (world_of demo_room_open 2) "u7" ["Bala"]
        = (world_of demo_room_open 2, Raise e) ∧ NotFound e) ∧
  ∃ w' resp room',
    join_multiple_players demo_uuid4 (world_of demo_room_open 2) "u1"
      ["Bala"; "Chitra"; "Dev"; "Esha"; "Farid"] = (w', Ok resp) ∧
    rooms w' !! "u1" = Some room' ∧
    length (players room') = 4%nat ∧
    map p_name (waitlist room') = ["Esha"; "Farid"].
Proof.
  split.
  - apply (join_multiple_fill_then_overflow demo_uuid4 (world_of demo_room_open 2)
             "u7" ["Bala"]).
    vm_compute. reflexivity.
  - destruct (proj2 (join_multiple_fill_then_overflow demo_uuid4
                       (world_of demo_room_open 2) "u1"
                       ["Bala"; "Chitra"; "Dev"; "Esha"; "Farid"])
                demo_room_open)
      as (w' & resp & room' & Hcall & Hroom' & _ & _ & _ & Hwait & _ & _ & Hlen & _).
    + vm_compute. reflexivity.
    + exists w', resp, room'. split_and!; [exact Hcall | exact Hroom' | |].
      * apply Hlen. cbn. lia.
      * rewrite Hwait. vm_compute. reflexivity.
Defined.

(** C6: on an existing room, [submit_guess] by anyone whose id is not the
    recorded [mantri_id] raises the 403 error and hands back the world
    unchanged (so no score moves); whenever it succeeds the caller is the
    recorded Mantri, the result is "correct" exactly when the guessed id is
    [chor_id] and "incorrect" otherwise, and [actualChorId] is [chor_id]; and
    it does succeed for the Mantri once every active player holds a role. *)
Theorem submit_guess_only_mantri w roomId room playerId guessed :
  rooms w !! roomId = Some room →
  (mantri_id room ≠ Some playerId →
   ∃ e, submit_guess w roomId playerId guessed = (w, Raise e) ∧ Forbidden e) ∧
  (∀ w' resp,
     submit_guess w roomId playerId guessed = (w', Ok resp) →
     mantri_id room = Some playerId ∧
     (gr_result resp = "correct" ↔ chor_id room = Some guessed) ∧
     (gr_result resp = "incorrect" ↔ chor_id room ≠ Some guessed) ∧
     gr_actualChorId resp = chor_id room) ∧
  (mantri_id room = Some playerId → Forall has_role (players room) →
   ∃ w' resp, submit_guess w roomId playerId guessed = (w', Ok resp)).
Proof.
  intros Hroom. split_and!.
  - intros Hne. eexists. split; [| by eexists]. by eapply submit_guess_forbidden.
  - intros w' resp. unfold submit_guess. rewrite Hroom.
    destruct (decide (Some playerId ≠ mantri_id room)) as [Hne | Heq];
      [discriminate |].
    apply dec_stable in Heq.
    destruct (score_loop _ _) as [ps [e |]]; [discriminate |].
    intros [= <- <-]. cbn. split; [done |].
    destruct (bool_decide_reflect (Some guessed = chor_id room)) as [Hc | Hc];
      split_and!; try done; split; congruence.
  - intros Hmantri Hroles. eexists _, _. by apply submit_guess_ok.
Qed.

Lemma submit_guess_only_mantri_witness :
  (∃ e, submit_guess (world_of demo_room_assigned 6) "u1" "u4" "u3"
        = (world_of demo_room_assigned 6, Raise e) ∧ Forbidden e) ∧
  (∃ w' resp, submit_guess (world_of demo_room_assigned 6) "u1" "u2" "u3"
              = (w', Ok resp)).
Proof.
  split.
  - apply (submit_guess_only_mantri (world_of demo_room_assigned 6) "u1"
             demo_room_assigned "u4" "u3").
    + vm_compute. reflexivity.
    + discriminate.
  - apply (submit_guess_only_mantri (world_of demo_room_assigned 6) "u1"
             demo_room_assigned "u2" "u3").
    + vm_compute. reflexivity.
    + reflexivity.
    + repeat (constructor; [eexists; split; [reflexivity | compute_done] |]).
      constructor.
Defined.

(** C7: on a room of a running service, [result] raises the 400 error while
    [roles_assigned] is false, and again while roles are assigned but
    [guess_submitted] is false; it answers exactly when both flags are set,
    and then the history shows a successful [assign_roles] on the room
    followed, with no later successful [assign_roles] on it, by a successful
    [submit_guess] on the room. *)
Theorem result_needs_roles_and_guess uuid4 log w roomId room :
  execution uuid4 log w →
  rooms w !! roomId = Some room →
  (roles_assigned room = false →
   ∃ e, result w roomId = (w, Raise e) ∧ InvalidState e) ∧
  (roles_assigned room = true → guess_submitted room = false →
   ∃ e, result w roomId = (w, Raise e) ∧ InvalidState e) ∧
  (roles_assigned room = true → guess_submitted room = true →
   ∃ resp, result w roomId = (w, Ok resp)) ∧
  (∀ w' resp, result w roomId = (w', Ok resp) →
     roles_assigned room = true ∧ guess_submitted room = true ∧
     round_assigned roomId log ∧ round_guessed roomId log) ∧
  (¬ round_guessed roomId log →
   ∃ e, result w roomId = (w, Raise e) ∧ InvalidState e).
Proof.
  intros Hexec Hroom.
  destruct (execution_history_inv _ _ _ Hexec _ _ Hroom) as [Hassigned Hguessed].
  unfold result. rewrite Hroom.
  destruct (roles_assigned room), (guess_submitted room); cbn;
    split_and!; try done; intros; try (eexists; split; [done | by eexists]).
  - by eexists.
  - split_and!; auto.
  - exfalso. auto.
Qed.

Lemma result_needs_roles_and_guess_witness :
  (∃ resp, result demo_world "u1" = (demo_world, Ok resp)) ∧
  round_guessed "u1" demo_log.
Proof.
  destruct (result_needs_roles_and_guess demo_uuid4 demo_log demo_world "u1"
              demo_room_guessed) as (_ & _ & Hok & Hhist & _).
  - exists demo_requests. split.
    + repeat constructor.
    + reflexivity.
  - vm_compute. reflexivity.
  - destruct (Hok eq_refl eq_refl) as [resp Hresp].
    split; [by exists resp |]. by apply (Hhist _ _ Hresp).
Defined.

(** C8: on an existing room, [leaderboard] lists every active player once,
    in descending order of score, and the players of any one score appear in
    the order they have in the room's player list. *)
Theorem leaderboard_sorted_stable w roomId room :
  rooms w !! roomId = Some room →
  ∃ ranking,
    leaderboard w roomId
    = (w, Ok (map (λ p, mkLeaderboardEntry (p_id p) (p_name p) (p_score p)) ranking)) ∧
    ranking ≡ₚ players room ∧
    StronglySorted (λ a b, score_ge (p_score a) (p_score b)) ranking ∧
    ∀ s, filter (λ p, p_score p = s) ranking
         = filter (λ p, p_score p = s) (players room).
Proof.
  intros Hroom. exists (sorted_by_score_desc (players room)). split_and!.
  - unfold leaderboard. by rewrite Hroom.
  - apply sorted_by_score_desc_perm.
  - apply sorted_by_score_desc_sorted.
  - intros s. apply sorted_by_score_desc_stable.
Qed.

Lemma leaderboard_sorted_stable_witness :
  ∃ ranking,
    leaderboard (world_of demo_room_assigned 6) "u1"
    = (world_of demo_room_assigned 6,
       Ok (map (λ p, mkLeaderboardEntry (p_id p) (p_name p) (p_score p)) ranking)) ∧
    map p_id (filter (λ p, p_score p = 0) ranking) = ["u0"; "u2"; "u3"; "u4"].
Proof.
  destruct (leaderboard_sorted_stable (world_of demo_room_assigned 6) "u1"
              demo_room_assigned) as (ranking & Hcall & _ & _ & Hstable).
  - vm_compute. reflexivity.
  - exists ranking. split; [exact Hcall |]. rewrite (Hstable 0).
    vm_compute. reflexivity.
Defined.

(** The handler function [view_role] on its own, before its value meets
    the response model: on an unknown room, or for an id that no active
    player of the room carries, it raises a 404 error; for an active player
    of a room whose ids are distinct it returns that player's id with its
    [role] attribute as stored, which is [None] when the player has no role
    yet. *)
Lemma view_role_returns_role_as_is w roomId playerId :
  (rooms w !! roomId = None →
   ∃ e, view_role w roomId playerId = (w, Raise e) ∧ NotFound e) ∧
  (∀ room, rooms w !! roomId = Some room →
     playerId ∉ map p_id (players room) →
     ∃ e, view_role w roomId playerId = (w, Raise e) ∧ NotFound e) ∧
  (∀ room p, rooms w !! roomId = Some room →
     NoDup (map p_id (players room)) →
     p ∈ players room → p_id p = playerId →
     view_role w roomId playerId = (w, Ok (mkRoleResponse playerId (p_role p)))) ∧
  (∀ room p, rooms w !! roomId = Some room →
     NoDup (map p_id (players room)) →
     p ∈ players room → p_id p = playerId → p_role p = None →
     view_role w roomId playerId = (w, Ok (mkRoleResponse playerId None))).
Proof.
  assert (∀ room p, rooms w !! roomId = Some room →
            NoDup (map p_id (players room)) →
            p ∈ players room → p_id p = playerId →
            view_role w roomId playerId
            = (w, Ok (mkRoleResponse playerId (p_role p)))) as Hfound.
  { intros room p Hroom Hnd Hp <-. unfold view_role. rewrite Hroom.
    by rewrite view_role_loop_found. }
  split_and!.
  - intros Hroom. eexists. split; [| by eexists]. unfold view_role. by rewrite Hroom.
  - intros room Hroom Hmissing. eexists. split; [| by eexists].
    unfold view_role. rewrite Hroom. by rewrite view_role_loop_missing.
  - exact Hfound.
  - intros room p Hroom Hnd Hp Hid Hnone. rewrite <- Hnone. by eapply Hfound.
Qed.

Lemma view_role_returns_role_as_is_witness :
  view_role (world_of demo_room_full 6) "u1" "u3"
  = (world_of demo_room_full 6, Ok (mkRoleResponse "u3" None)) ∧
  view_role (world_of demo_room_assigned 6) "u1" "u3"
  = (world_of demo_room_assigned 6, Ok (mkRoleResponse "u3" (Some "Chor"))) ∧
  (∃ e, view_role (world_of demo_room_full 6) "u1" "u5"
        = (world_of demo_room_full 6, Raise e) ∧ NotFound e) ∧
  (∃ e, view_role (world_of demo_room_full 6) "u9" "u3"
        = (world_of demo_room_full 6, Raise e) ∧ NotFound e).
Proof.
  split_and!.
  - destruct (view_role_returns_role_as_is (world_of demo_room_full 6) "u1" "u3")
      as (_ & _ & _ & Hnone).
    apply (Hnone demo_room_full (mkPlayer "u3" "Chitra" None 0));
      [vm_compute; reflexivity | compute_done | compute_done | reflexivity
      | reflexivity].
  - destruct (view_role_returns_role_as_is (world_of demo_room_assigned 6) "u1" "u3")
      as (_ & _ & Hfound & _).
    apply (Hfound demo_room_assigned (mkPlayer "u3" "Chitra" (Some "Chor") 0));
      [vm_compute; reflexivity | compute_done | compute_done | reflexivity].
  - destruct (view_role_returns_role_as_is (world_of demo_room_full 6) "u1" "u5")
      as (_ & Hmissing & _).
    apply (Hmissing demo_room_full); [vm_compute; reflexivity | compute_done].
  - destruct (view_role_returns_role_as_is (world_of demo_room_full 6) "u9" "u3")
      as (Hunknown & _).
    apply Hunknown. vm_compute. reflexivity.
Defined.

(** C9 (the code falls short of it): for an active player of a room whose
    ids are distinct, the handler [view_role] does return the [role]
    attribute as stored, but the route declares [role: str] in its response
    model.  So a player whose role is still [None] gets a response
    validation error where the claim promises the null role; a player with a
    role gets that role.  The world is left as it was in both cases. *)
Theorem view_role_route_rejects_null_role w roomId room p :
  rooms w !! roomId = Some room →
  NoDup (map p_id (players room)) →
  p ∈ players room →
  (p_role p = None →
   view_role w roomId (p_id p) = (w, Ok (mkRoleResponse (p_id p) None)) ∧
   view_role_route w roomId (p_id p) = (w, ResponseValidationError)) ∧
  (∀ role, p_role p = Some role →
   view_role_route w roomId (p_id p)
   = (w, Sent (mkRoleResponseModel (p_id p) role))).
Proof.
  intros Hroom Hnd Hp.
  assert (view_role w roomId (p_id p)
          = (w, Ok (mkRoleResponse (p_id p) (p_role p)))) as Hview.
  { unfold view_role. rewrite Hroom. by rewrite view_role_loop_found. }
  unfold view_role_route. rewrite Hview. unfold RoleResponse_validate. cbn.
  split.
  - intros Hnone. by rewrite Hnone.
  - intros role Hrole. by rewrite Hrole.
Qed.

Lemma view_role_route_rejects_null_role_witness :
  view_role (world_of demo_room_full 6) "u1" "u3"
  = (world_of demo_room_full 6, Ok (mkRoleResponse "u3" None)) ∧
  view_role_route (world_of demo_room_full 6) "u1" "u3"
  = (world_of demo_room_full 6, ResponseValidationError).
Proof.
  apply (view_role_route_rejects_null_role (world_of demo_room_full 6) "u1"
           demo_room_full (mkPlayer "u3" "Chitra" None 0)).
  - vm_compute. reflexivity.
  - compute_done.
  - compute_done.
  - reflexivity.
Defined.

(** The failing request is one the service really receives: the host of a
    room that has just been created asks for its role. *)
Example view_role_route_after_create_room :
  let w := (create_room demo_uuid4 init_world "den" "Asha").1 in
  reachable demo_uuid4 w ∧
  view_role_route w "u1" "u0" = (w, ResponseValidationError).
Proof.
  split.
  - exists (serve demo_uuid4 init_world [CreateRoom "den" "Asha"]).1,
      [CreateRoom "den" "Asha"].
    split; [repeat constructor | reflexivity].
  - vm_compute. reflexivity.
Qed.

(** * Further properties of the handlers *)

(** ** The effect of one request *)

Section Effects.

Variable uuid4 : nat → string.

Lemma handle_effect w rq :
  valid_request rq →
  map_Forall (λ _, room_inv) (rooms w) →
  ((handle uuid4 w rq).1 = w ∧
   (∀ e, (handle uuid4 w rq).2 = Raise e → http_error e)) ∨
  (∃ k r' calls',
     room_update uuid4 w k r' calls' ∧
     (handle uuid4 w rq).1 = mkWorld (<[k := r']> (rooms w)) calls' ∧
     ∃ a, (handle uuid4 w rq).2 = Ok a).
Proof.
  intros Hvalid Hinv.
  destruct rq as [roomName playerName | roomId names | roomId | roomId shuffled
                 | roomId playerId | roomId playerId guessed | roomId | roomId];
    cbn [handle]; rewrite handle_world, handle_outcome.
  - right. eexists _, _, _. split; [apply (update_created _ _ roomName playerName) |].
    split; [reflexivity | by eexists].
  - destruct (join_multiple_players_cases uuid4 w roomId names)
      as [[_ ->] | (room & Hroom & ->)]; cbn.
    + left. split; [done |]. intros e [= <-]. left. by eexists.
    + right. eexists _, _, _. split; [by apply update_joined |].
      split; [reflexivity | by eexists].
  - left. split; [apply (read_only_requests w roomId EmptyString) |].
    unfold get_players. destruct (rooms w !! roomId); cbn; intros e [= <-].
    left. by eexists.
  - destruct (assign_roles_cases w roomId shuffled)
      as [[_ ->] | [(room & _ & _ & ->) | (room & Hroom & Hlen & ->)]]; cbn.
    + left. split; [done |]. intros e [= <-]. left. by eexists.
    + left. split; [done |]. intros e [= <-]. right. left. by eexists.
    + right. eexists _, _, _. split; [by apply update_assigned |].
      split; [reflexivity | by eexists].
  - left. split; [apply (read_only_requests w roomId playerId) |].
    unfold view_role. destruct (rooms w !! roomId) as [room |]; cbn.
    + induction (players room) as [| p ps IH]; cbn.
      * intros e [= <-]. left. by eexists.
      * destruct (decide (p_id p = playerId)); [done | exact IH].
    + intros e [= <-]. left. by eexists.
  - destruct (submit_guess_cases w roomId playerId guessed Hinv)
      as [[_ ->] | [(room & _ & _ & ->)
                   | (room & Hroom & Hmantri & Hassigned & Hdealt & ->)]]; cbn.
    + left. split; [done |]. intros e [= <-]. left. by eexists.
    + left. split; [done |]. intros e [= <-]. right. right. by eexists.
    + right. eexists _, _, _. split; [by eapply update_guessed |].
      split; [reflexivity | by eexists].
  - left. split; [apply (read_only_requests w roomId EmptyString) |].
    unfold result. destruct (rooms w !! roomId) as [room |]; cbn.
    + destruct (roles_assigned room), (guess_submitted room); cbn;
        intros e [= <-]; right; left; by eexists.
    + intros e [= <-]. left. by eexists.
  - left. split; [apply (read_only_requests w roomId EmptyString) |].
    unfold leaderboard. destruct (rooms w !! roomId); cbn; intros e [= <-].
    left. by eexists.
Qed.

(** A property of single rooms that every kind of update establishes holds
    of all rooms of every reachable world. *)
Lemma execution_rooms_ind (P : Room → Prop) :
  (∀ w k r' calls', map_Forall (λ _, room_inv) (rooms w) →
     map_Forall (λ _, P) (rooms w) → room_update uuid4 w k r' calls' → P r') →
  ∀ log w, execution uuid4 log w → map_Forall (λ _, P) (rooms w).
Proof.
  intros Hupdate. apply execution_rev_ind.
  - apply map_Forall_empty.
  - intros log w rq Hexec IH Hrq.
    pose proof (execution_room_inv _ _ _ Hexec) as Hinv.
    destruct (handle_effect w rq Hrq Hinv)
      as [[-> _] | (k & r' & calls' & Hupd & -> & _)]; [done |].
    cbn. apply map_Forall_insert_2; [by eapply Hupdate | done].
Qed.

End Effects.

(** ** The books of a room *)

Lemma table_delta_nonneg correct role : 0 ≤ table_delta correct role.
Proof. unfold table_delta. destruct correct; repeat case_decide; lia. Qed.

Lemma ledger_inv_update uuid4 w k r' calls' :
  map_Forall (λ _, room_inv) (rooms w) →
  map_Forall (λ _, ledger_inv) (rooms w) →
  room_update uuid4 w k r' calls' → ledger_inv r'.
Proof.
  intros Hinv Hledger Hupd.
  destruct Hupd as [roomName playerName | roomId room names Hroom
                   | roomId room shuffled Hroom Hlen Hperm
                   | roomId room playerId guessed Hroom Hmantri Hassigned Hdealt].
  - split_and!; cbn; try done; by repeat constructor.
  - destruct (Hledger _ _ Hroom) as (Hscores & Hwait & Hguess & Hround).
    pose proof (new_players_fresh uuid4 (uuid_calls w) names) as Hnews.
    unfold ledger_inv, joined_room. cbn. split_and!.
    + apply Forall_app. split; [done |]. apply Forall_take.
      eapply Forall_impl; [exact Hnews |]. intros p [_ ->]. done.
    + apply Forall_app. split; [done |]. by apply Forall_drop.
    + done.
    + destruct (roles_assigned room); [done |].
      destruct Hround as (? & ? & Hzero). split_and!; try done.
      apply Forall_app. split; [done |]. apply Forall_take.
      eapply Forall_impl; [exact Hnews |]. by intros p [_ ?].
  - destruct (Hledger _ _ Hroom) as (Hscores & Hwait & Hguess & Hround).
    destruct (assigned_room_spec room shuffled Hlen Hperm) as (_ & Hframe & _).
    unfold ledger_inv.
    assert (waitlist (assigned_room room shuffled) = waitlist room ∧
            guess_submitted (assigned_room room shuffled) = false ∧
            roles_assigned (assigned_room room shuffled) = true ∧
            round_number (assigned_room room shuffled) = round_number room + 1)
      as (-> & -> & -> & ->).
    { unfold assigned_room. by destruct (assign_loop _ _ _ _) as [[? ?] ?]. }
    split_and!; try done.
    + clear -Hscores Hframe. induction Hframe as [| p p' ps ps' (_ & _ & Hs) _ IH];
        [constructor |].
      apply Forall_cons in Hscores as [Hp Hps]. constructor; [lia | by apply IH].
    + destruct (roles_assigned room); [lia |]. destruct Hround as (-> & _). lia.
  - destruct (Hledger _ _ Hroom) as (Hscores & Hwait & Hguess & Hround).
    unfold ledger_inv, guessed_room. cbn. rewrite Hassigned in *. split_and!; try done.
    apply Forall_fmap. eapply Forall_impl; [exact Hscores |]. cbn.
    intros p Hp. unfold player_delta.
    pose proof (table_delta_nonneg (bool_decide (Some guessed = chor_id room))
                  (default EmptyString (p_role p))). lia.
Qed.

Lemma execution_ledger_inv uuid4 log w :
  execution uuid4 log w → map_Forall (λ _, ledger_inv) (rooms w).
Proof. apply execution_rooms_ind. apply ledger_inv_update. Qed.

(** ** Room directory *)

(** X1: [create_room] always succeeds: it draws the host's id and then the
    room's id from [uuid4], answers with both, binds the room id to a room
    holding the host alone (no role, score 0, nothing started) and leaves
    every other key of [rooms] as it was; the new room is at once visible to
    [get_players] and [view_role], and too small for [assign_roles]. *)
Theorem create_room_registers_host uuid4 w roomName playerName shuffled :
  let hostId := uuid4 (uuid_calls w) in
  let roomId := uuid4 (S (uuid_calls w)) in
  ∃ w',
    create_room uuid4 w roomName playerName
    = (w', Ok (mkCreateRoomResponse roomId hostId "Room created successfully")) ∧
    rooms w' !! roomId
    = Some (mkRoom roomId roomName [mkPlayer hostId playerName None 0] []
              false None None false None 0) ∧
    (∀ k, k ≠ roomId → rooms w' !! k = rooms w !! k) ∧
    uuid_calls w' = S (S (uuid_calls w)) ∧
    get_players w' roomId
    = (w', Ok (mkPlayerListResponse roomId [mkIdName hostId playerName] 0)) ∧
    view_role w' roomId hostId = (w', Ok (mkRoleResponse hostId None)) ∧
    ∃ e, assign_roles w' roomId shuffled = (w', Raise e) ∧ InvalidState e.
Proof.
  intros hostId roomId.
  set (room := mkRoom roomId roomName [mkPlayer hostId playerName None 0] []
                 false None None false None 0).
  set (w' := mkWorld (<[roomId := room]> (rooms w)) (S (S (uuid_calls w)))).
  assert (rooms w' !! roomId = Some room) as Hroom.
  { cbn. by rewrite lookup_insert_eq. }
  exists w'. split_and!.
  - reflexivity.
  - exact Hroom.
  - intros k Hk. cbn. by rewrite lookup_insert_ne.
  - reflexivity.
  - unfold get_players. by rewrite Hroom.
  - unfold view_role. rewrite Hroom. cbn. by rewrite decide_True.
  - eexists. split; [| by eexists]. eapply assign_roles_bad_count; [exact Hroom |].
    cbn. lia.
Qed.

(** X2: every handler that takes a room id raises the 404 error "Room not
    found" for an id that is not a key of [rooms], and leaves the world as
    it was. *)
Theorem unknown_room_not_found uuid4 w roomId :
  rooms w !! roomId = None →
  let not_found {A} : World * outcome A :=
    (w, Raise (HTTPException 404 "Room not found")) in
  (∀ names, join_multiple_players uuid4 w roomId names = not_found) ∧
  get_players w roomId = not_found ∧
  (∀ shuffled, assign_roles w roomId shuffled = not_found) ∧
  (∀ playerId, view_role w roomId playerId = not_found) ∧
  (∀ playerId guessed, submit_guess w roomId playerId guessed = not_found) ∧
  result w roomId = not_found ∧
  leaderboard w roomId = not_found.
Proof.
  intros Hroom not_found.
  unfold join_multiple_players, get_players, assign_roles, view_role, submit_guess,
    result, leaderboard.
  rewrite Hroom. by split_and!.
Qed.

Lemma unknown_room_not_found_witness :
  result init_world "u1" = (init_world, Raise (HTTPException 404 "Room not found")) ∧
  submit_guess demo_world "u0" "u2" "u3"
  = (demo_world, Raise (HTTPException 404 "Room not found")).
Proof.
  split.
  - apply (unknown_room_not_found demo_uuid4 init_world "u1"). reflexivity.
  - apply (unknown_room_not_found demo_uuid4 demo_world "u0").
    vm_compute. reflexivity.
Defined.

(** ** Membership, continued *)

Lemma joined_room_nil room : joined_room room [] = room.
Proof.
  unfold joined_room. rewrite take_nil, drop_nil, !app_nil_r. by destruct room.
Qed.

(** X3: joining an empty list of names to an existing room reports nobody
    added and nobody waitlisted, draws no identifier and leaves the world
    exactly as it was. *)
Theorem join_multiple_no_names uuid4 w roomId room :
  rooms w !! roomId = Some room →
  join_multiple_players uuid4 w roomId []
  = (w, Ok (mkJoinMultipleResponse (r_id room) [] []
              "Players processed successfully")).
Proof.
  intros Hroom. rewrite (join_multiple_players_ok uuid4 w roomId room [] Hroom).
  cbn [new_players length]. rewrite joined_room_nil, take_nil, drop_nil.
  rewrite insert_id by done. rewrite Nat.add_0_r. by destruct w.
Qed.

Lemma join_multiple_no_names_witness :
  join_multiple_players demo_uuid4 demo_world "u1" []
  = (demo_world, Ok (mkJoinMultipleResponse "u1" [] []
                       "Players processed successfully")).
Proof.
  apply (join_multiple_no_names demo_uuid4 demo_world "u1" demo_room_guessed).
  vm_compute. reflexivity.
Defined.

Lemma new_players_app uuid4 calls names1 names2 :
  new_players uuid4 calls (names1 ++ names2)
  = new_players uuid4 calls names1
    ++ new_players uuid4 (calls + length names1) names2.
Proof.
  revert calls. induction names1 as [| name names1 IH]; intros calls; cbn.
  - by rewrite Nat.add_0_r.
  - rewrite IH. do 3 f_equal. lia.
Qed.

Lemma joined_room_app room news1 news2 :
  joined_room (joined_room room news1) news2 = joined_room room (news1 ++ news2).
Proof.
  unfold joined_room. cbn. rewrite length_app, length_take, take_app, drop_app.
  rewrite <- !app_assoc.
  replace (4 - (length (players room)
                + (4 - length (players room)) `min` length news1))%nat
    with (4 - length (players room) - length news1)%nat by lia.
  reflexivity.
Qed.

(** X4: two calls of [join_multiple_players] on a room, one after the other,
    leave the same world as one call with the two lists of names
    concatenated, and the single call reports as added (waitlisted) what the
    two calls report, in that order. *)
Theorem join_multiple_app uuid4 w roomId room names1 names2 :
  rooms w !! roomId = Some room →
  ∃ w1 r1 w2 r2 r,
    join_multiple_players uuid4 w roomId names1 = (w1, Ok r1) ∧
    join_multiple_players uuid4 w1 roomId names2 = (w2, Ok r2) ∧
    join_multiple_players uuid4 w roomId (names1 ++ names2) = (w2, Ok r) ∧
    jmr_added r = jmr_added r1 ++ jmr_added r2 ∧
    jmr_waitlisted r = jmr_waitlisted r1 ++ jmr_waitlisted r2.
Proof.
  intros Hroom.
  pose proof (join_multiple_players_ok uuid4 w roomId room names1 Hroom) as H1.
  pose proof (join_multiple_players_ok uuid4 w roomId room (names1 ++ names2) Hroom)
    as H12.
  cbn zeta in H1, H12.
  set (news1 := new_players uuid4 (uuid_calls w) names1) in *.
  set (w1 := mkWorld (<[roomId := joined_room room news1]> (rooms w))
               (uuid_calls w + length names1)) in *.
  assert (rooms w1 !! roomId = Some (joined_room room news1)) as Hroom1.
  { cbn. by rewrite lookup_insert_eq. }
  pose proof (join_multiple_players_ok uuid4 w1 roomId _ names2 Hroom1) as H2.
  cbn zeta in H2. cbn [uuid_calls rooms w1] in H2.
  set (news2 := new_players uuid4 (uuid_calls w + length names1) names2) in *.
  rewrite insert_insert_eq, joined_room_app in H2.
  rewrite new_players_app in H12. fold news1 news2 in H12.
  rewrite length_app, Nat.add_assoc in H12.
  eexists _, _, _, _, _. split_and!; [exact H1 | exact H2 | exact H12 | |]; cbn.
  - rewrite <- map_app. f_equal. rewrite take_app, length_app, length_take.
    f_equal. f_equal. unfold news1. lia.
  - rewrite <- map_app. f_equal. rewrite drop_app, length_app, length_take.
    f_equal. f_equal. lia.
Qed.

Lemma join_multiple_app_witness :
  ∃ w1 r1 w2 r2 r,
    join_multiple_players demo_uuid4 (world_of demo_room_open 2) "u1"
      ["Bala"; "Chitra"] = (w1, Ok r1) ∧
    join_multiple_players demo_uuid4 w1 "u1" ["Dev"; "Esha"] = (w2, Ok r2) ∧
    join_multiple_players demo_uuid4 (world_of demo_room_open 2) "u1"
      (["Bala"; "Chitra"] ++ ["Dev"; "Esha"]) = (w2, Ok r) ∧
    jmr_added r = jmr_added r1 ++ jmr_added r2 ∧
    jmr_waitlisted r = jmr_waitlisted r1 ++ jmr_waitlisted r2.
Proof.
  apply (join_multiple_app demo_uuid4 (world_of demo_room_open 2) "u1"
           demo_room_open).
  vm_compute. reflexivity.
Defined.

(** X5: after a [join_multiple_players] on a room, [get_players] lists the
    players it listed before followed by those the call reported as added,
    and its waitlist count has grown by the number reported as waitlisted. *)
Theorem get_players_after_join uuid4 w roomId room names :
  rooms w !! roomId = Some room →
  ∃ w' resp,
    join_multiple_players uuid4 w roomId names = (w', Ok resp) ∧
    get_players w roomId
    = (w, Ok (mkPlayerListResponse roomId (map id_name (players room))
                (length (waitlist room)))) ∧
    get_players w' roomId
    = (w', Ok (mkPlayerListResponse roomId
                 (map id_name (players room) ++ jmr_added resp)
                 (length (waitlist room) + length (jmr_waitlisted resp)))).
Proof.
  intros Hroom. eexists _, _. split_and!.
  - by apply join_multiple_players_ok.
  - unfold get_players. by rewrite Hroom.
  - unfold get_players. cbn. rewrite lookup_insert_eq. cbn.
    by rewrite map_app, length_app, length_map.
Qed.

Lemma get_players_after_join_witness :
  ∃ w' resp,
    join_multiple_players demo_uuid4 (world_of demo_room_open 2) "u1"
      ["Bala"; "Chitra"; "Dev"; "Esha"] = (w', Ok resp) ∧
    get_players w' "u1"
    = (w', Ok (mkPlayerListResponse "u1"
                 [mkIdName "u0" "Asha"; mkIdName "u2" "Bala";
                  mkIdName "u3" "Chitra"; mkIdName "u4" "Dev"] 1)).
Proof.
  destruct (get_players_after_join demo_uuid4 (world_of demo_room_open 2) "u1"
              demo_room_open ["Bala"; "Chitra"; "Dev"; "Esha"])
    as (w' & resp & Hjoin & _ & Hlist).
  - vm_compute. reflexivity.
  - exists w', resp. split; [exact Hjoin |]. rewrite Hlist.
    vm_compute in Hjoin. injection Hjoin as <- <-. reflexivity.
Defined.

(** ** Rounds *)

(** X6: after a successful [assign_roles], [view_role] answers, for the
    player at position [i] of the active list, the role at position [i] of
    the shuffled list (ids being distinct within the room). *)
Theorem view_role_after_assign w roomId room shuffled i p role :
  rooms w !! roomId = Some room →
  length (players room) = 4%nat →
  shuffled ≡ₚ ROLES →
  NoDup (map p_id (players room)) →
  players room !! i = Some p →
  shuffled !! i = Some role →
  ∃ w' round,
    assign_roles w roomId shuffled = (w', Ok round) ∧
    view_role w' roomId (p_id p) = (w', Ok (mkRoleResponse (p_id p) (Some role))).
Proof.
  intros Hroom Hlen Hperm Hnd Hp Hrole.
  destruct (assigned_room_spec room shuffled Hlen Hperm) as (Hroles & Hframe & _).
  eexists _, _. split; [by apply assign_roles_ok |].
  unfold view_role. cbn. rewrite lookup_insert_eq.
  destruct (Forall2_lookup_l _ _ _ _ _ Hframe Hp) as (p' & Hp' & Hid & _).
  assert (p_role p' = Some role) as Hrole'.
  { apply (f_equal (λ l, l !! i)) in Hroles.
    rewrite !list_lookup_fmap, Hp', Hrole in Hroles. by injection Hroles. }
  rewrite <- Hid, <- Hrole'. f_equal. apply view_role_loop_found.
  - by eapply list_elem_of_lookup_2.
  - unfold assigned_room.
    pose proof (assign_loop_ids (players room) shuffled (mantri_id room)
                  (chor_id room)) as Hids.
    destruct (assign_loop _ _ _ _) as [[ps m] c]. cbn in *. by rewrite Hids.
Qed.

Lemma view_role_after_assign_witness :
  ∃ w' round,
    assign_roles (world_of demo_room_full 6) "u1" ["Sipahi"; "Chor"; "Raja"; "Mantri"]
    = (w', Ok round) ∧
    view_role w' "u1" "u3" = (w', Ok (mkRoleResponse "u3" (Some "Raja"))).
Proof.
  apply (view_role_after_assign (world_of demo_room_full 6) "u1" demo_room_full
           ["Sipahi"; "Chor"; "Raja"; "Mantri"] 2 (mkPlayer "u3" "Chitra" None 0)
           "Raja").
  - vm_compute. reflexivity.
  - reflexivity.
  - compute_done.
  - compute_done.
  - reflexivity.
  - reflexivity.
Defined.

Lemma POINTS_nonneg k v : POINTS !! k = Some v → 0 ≤ v.
Proof.
  assert (map_Forall (λ _ v, 0 ≤ v) POINTS) as Hall.
  { unfold POINTS. repeat (apply map_Forall_insert_2; [lia |]).
    apply map_Forall_empty. }
  apply Hall.
Qed.

Lemma score_delta_nonneg correct role d :
  score_delta correct role = Ok d → 0 ≤ d.
Proof.
  assert (∀ key, POINTS_getitem key = Ok d → 0 ≤ d) as Hget.
  { intros [k |]; cbn; [| done].
    destruct (POINTS !! k) as [v |] eqn:Hk; [| done].
    intros [= <-]. by eapply POINTS_nonneg. }
  unfold score_delta. destruct correct; [apply Hget |].
  repeat case_decide; [apply Hget | by intros [= <-] | apply Hget].
Qed.

Lemma score_loop_success correct ps : ∀ ps',
  score_loop correct ps = (ps', None) →
  Forall2 (λ p p', ∃ d, score_delta correct (p_role p) = Ok d ∧ p' = add_score d p)
    ps ps'.
Proof.
  induction ps as [| p ps IH]; intros ps'; cbn.
  - intros [= <-]. constructor.
  - destruct (score_delta correct (p_role p)) as [d |] eqn:Hd; [| done].
    destruct (score_loop correct ps) as [rest e]. intros [= <- ->].
    constructor; [by exists d | by apply IH].
Qed.

(** X7: one round, in order.  A successful [assign_roles] makes [result]
    raise the 400 error until a guess is accepted; every [submit_guess] that
    then succeeds makes [result] answer with the new round number. *)
Theorem round_sequence w roomId room shuffled :
  rooms w !! roomId = Some room →
  length (players room) = 4%nat →
  ∃ w1,
    assign_roles w roomId shuffled = (w1, Ok (round_number room + 1)) ∧
    (∃ e, result w1 roomId = (w1, Raise e) ∧ InvalidState e) ∧
    ∀ playerId guessed w2 resp,
      submit_guess w1 roomId playerId guessed = (w2, Ok resp) →
      ∃ r, result w2 roomId = (w2, Ok r) ∧ res_round r = round_number room + 1 ∧
           length (res_players r) = 4%nat.
Proof.
  intros Hroom Hlen. eexists. split; [by apply assign_roles_ok |].
  set (w1 := mkWorld _ _).
  assert (rooms w1 !! roomId = Some (assigned_room room shuffled)) as Hroom1.
  { cbn. by rewrite lookup_insert_eq. }
  assert (roles_assigned (assigned_room room shuffled) = true ∧
          guess_submitted (assigned_room room shuffled) = false ∧
          round_number (assigned_room room shuffled) = round_number room + 1 ∧
          length (players (assigned_room room shuffled)) = 4%nat)
    as (Hassigned & Hguess & Hround & Hlen1).
  { pose proof (assign_loop_ids (players room) shuffled (mantri_id room)
                  (chor_id room)) as Hids.
    unfold assigned_room. destruct (assign_loop _ _ _ _) as [[ps m] c].
    cbn in *. split_and!; try done.
    apply (f_equal length) in Hids. rewrite !length_map in Hids. congruence. }
  split.
  - eexists. split; [| by eexists]. unfold result.
    by rewrite Hroom1, Hassigned, Hguess.
  - intros playerId guessed w2 resp. unfold submit_guess. rewrite Hroom1.
    destruct (decide _); [done |].
    destruct (score_loop _ _) as [ps [e |]] eqn:Hloop; [done |].
    intros [= <- <-]. eexists. unfold result. cbn. rewrite lookup_insert_eq. cbn.
    rewrite Hassigned. cbn. split_and!; [reflexivity | done |].
    apply score_loop_success, Forall2_length in Hloop.
    cbn [res_players]. rewrite length_map. congruence.
Qed.

Lemma round_sequence_witness :
  ∃ w1,
    assign_roles (world_of demo_room_full 6) "u1" ROLES = (w1, Ok 1) ∧
    (∃ e, result w1 "u1" = (w1, Raise e) ∧ InvalidState e).
Proof.
  destruct (round_sequence (world_of demo_room_full 6) "u1" demo_room_full ROLES)
    as (w1 & Hassign & Hresult & _).
  - vm_compute. reflexivity.
  - reflexivity.
  - by exists w1.
Defined.

(** X8: whatever the room, a [submit_guess] that succeeds marks the guess as
    submitted and stores the guessed id; each active player keeps id, name
    and role and does not lose points; the waitlist, the role state and the
    round number of the room, the other rooms and the [uuid4] counter are as
    before. *)
Theorem submit_guess_frame w roomId room playerId guessed w' resp :
  rooms w !! roomId = Some room →
  submit_guess w roomId playerId guessed = (w', Ok resp) →
  ∃ room',
    rooms w' !! roomId = Some room' ∧
    guess_submitted room' = true ∧
    guessed_player_id room' = Some guessed ∧
    Forall2 (λ p p', p_id p' = p_id p ∧ p_name p' = p_name p ∧
                     p_role p' = p_role p ∧ p_score p ≤ p_score p')
      (players room) (players room') ∧
    waitlist room' = waitlist room ∧
    roles_assigned room' = roles_assigned room ∧
    mantri_id room' = mantri_id room ∧
    chor_id room' = chor_id room ∧
    round_number room' = round_number room ∧
    (∀ k, k ≠ roomId → rooms w' !! k = rooms w !! k) ∧
    uuid_calls w' = uuid_calls w.
Proof.
  intros Hroom. unfold submit_guess. rewrite Hroom.
  destruct (decide _); [done |].
  destruct (score_loop _ _) as [ps [e |]] eqn:Hloop; [done |].
  intros [= <- <-]. eexists. cbn. rewrite lookup_insert_eq. split_and!; try done.
  - apply score_loop_success in Hloop. cbn.
    eapply Forall2_impl; [exact Hloop |]. cbn.
    intros p p' (d & Hd & ->). apply score_delta_nonneg in Hd. cbn.
    split_and!; try done. lia.
  - intros k Hk. by rewrite lookup_insert_ne.
Qed.

Lemma submit_guess_frame_witness :
  ∃ room',
    rooms (submit_guess (world_of demo_room_assigned 6) "u1" "u2" "u4").1 !! "u1"
    = Some room' ∧
    guess_submitted room' = true ∧ guessed_player_id room' = Some "u4".
Proof.
  destruct (submit_guess_frame (world_of demo_room_assigned 6) "u1"
              demo_room_assigned "u2" "u4"
              (submit_guess (world_of demo_room_assigned 6) "u1" "u2" "u4").1
              (mkGuessResponse "incorrect" (Some "u3")))
    as (room' & Hroom' & Hflag & Hstored & _).
  - vm_compute. reflexivity.
  - vm_compute. reflexivity.
  - by exists room'.
Defined.

(** ** Leaderboard, continued *)

(** X9: the answer of [leaderboard] is forced by two requirements: any
    arrangement of the active players that is in descending order of score
    and keeps the players of each score in their order of the room's list is
    the one [leaderboard] returns. *)
Theorem leaderboard_determined w roomId room ranking :
  rooms w !! roomId = Some room →
  StronglySorted (λ a b, score_ge (p_score a) (p_score b)) ranking →
  (∀ s, filter (λ p, p_score p = s) ranking
        = filter (λ p, p_score p = s) (players room)) →
  leaderboard w roomId
  = (w, Ok (map (λ p, mkLeaderboardEntry (p_id p) (p_name p) (p_score p)) ranking)).
Proof.
  intros Hroom Hsorted Hstable. unfold leaderboard. rewrite Hroom.
  by rewrite (sorted_by_score_desc_unique _ _ Hsorted Hstable).
Qed.

Lemma leaderboard_determined_witness :
  leaderboard demo_world "u1"
  = (demo_world,
     Ok [mkLeaderboardEntry "u0" "Asha" 1000; mkLeaderboardEntry "u2" "Bala" 800;
         mkLeaderboardEntry "u4" "Dev" 500; mkLeaderboardEntry "u3" "Chitra" 0]).
Proof.
  apply (leaderboard_determined demo_world "u1" demo_room_guessed
           [mkPlayer "u0" "Asha" (Some "Raja") 1000;
            mkPlayer "u2" "Bala" (Some "Mantri") 800;
            mkPlayer "u4" "Dev" (Some "Sipahi") 500;
            mkPlayer "u3" "Chitra" (Some "Chor") 0]).
  - vm_compute. reflexivity.
  - repeat (constructor; [| repeat constructor; unfold score_ge; cbn; lia]).
    constructor.
  - intros s. unfold demo_room_guessed. cbn.
    repeat case_decide; try reflexivity; lia.
Defined.

(** ** Reachable worlds, continued *)

Lemma demo_uuid4_inj : Inj (=) (=) demo_uuid4.
Proof.
  intros m n Heq. unfold demo_uuid4 in Heq. cbn in Heq.
  injection Heq as Heq. by apply (inj pretty).
Qed.

Lemma room_update_calls uuid4 w k r' calls' :
  room_update uuid4 w k r' calls' → (uuid_calls w ≤ calls')%nat.
Proof. destruct 1; lia. Qed.

Lemma room_update_r_id uuid4 w k r' calls' :
  key_inv uuid4 w → room_update uuid4 w k r' calls' → r_id r' = k.
Proof.
  intros Hkeys Hupd.
  destruct Hupd as [roomName playerName | roomId room names Hroom
                   | roomId room shuffled Hroom Hlen Hperm
                   | roomId room playerId guessed Hroom Hmantri Hassigned Hdealt];
    try (destruct (Hkeys _ _ Hroom) as [Hid _]); try done.
  unfold assigned_room. by destruct (assign_loop _ _ _ _) as [[? ?] ?].
Qed.

Lemma room_update_key uuid4 w k r' calls' :
  key_inv uuid4 w → room_update uuid4 w k r' calls' →
  ∃ n, (n < calls')%nat ∧ k = uuid4 n.
Proof.
  intros Hkeys Hupd. pose proof (room_update_calls _ _ _ _ _ Hupd) as Hle.
  destruct Hupd as [roomName playerName | roomId room names Hroom
                   | roomId room shuffled Hroom Hlen Hperm
                   | roomId room playerId guessed Hroom Hmantri Hassigned Hdealt];
    try (destruct (Hkeys _ _ Hroom) as (_ & n & Hn & ->); exists n; split;
         [lia | done]).
  exists (S (uuid_calls w)). split; [lia | done].
Qed.

Lemma execution_key_inv uuid4 log w : execution uuid4 log w → key_inv uuid4 w.
Proof.
  revert log w. apply execution_rev_ind.
  - intros k r Hr. cbn in Hr. by rewrite lookup_empty in Hr.
  - intros log w rq Hexec IH Hrq.
    pose proof (execution_room_inv _ _ _ Hexec) as Hinv.
    destruct (handle_effect uuid4 w rq Hrq Hinv)
      as [[-> _] | (k & r' & calls' & Hupd & -> & _)]; [done |].
    intros k0 r0. cbn. destruct (decide (k = k0)) as [<- | Hne].
    + rewrite lookup_insert_eq. intros [= <-].
      split; [by eapply room_update_r_id | by eapply room_update_key].
    + rewrite lookup_insert_ne by done. intros Hr0.
      destruct (IH _ _ Hr0) as (Hid & n & Hn & ->). split; [done |].
      exists n. split; [| done]. apply room_update_calls in Hupd. lia.
Qed.

Lemma NoDup_fmap_elem_eq {A B} (f : A → B) (l : list A) x y :
  NoDup (map f l) → x ∈ l → y ∈ l → f x = f y → x = y.
Proof.
  induction l as [| a l IH]; cbn; intros Hnd Hx Hy Heq;
    [by apply elem_of_nil in Hx |].
  apply NoDup_cons in Hnd as [Hfresh Hnd].
  apply elem_of_cons in Hx as [-> | Hx]; apply elem_of_cons in Hy as [-> | Hy];
    try done.
  - exfalso. apply Hfresh. rewrite Heq. by apply (list_elem_of_fmap_2 f).
  - exfalso. apply Hfresh. rewrite <- Heq. by apply (list_elem_of_fmap_2 f).
  - by apply IH.
Qed.

(** X10: in a reachable world, as long as roles have not been assigned in a
    room, [submit_guess] on it raises the 403 error for every caller and
    every guess, and changes nothing: [mantri_id] is still [None], which no
    caller id equals. *)
Theorem guess_before_assignment_forbidden uuid4 w roomId room playerId guessed :
  reachable uuid4 w →
  rooms w !! roomId = Some room →
  roles_assigned room = false →
  ∃ e, submit_guess w roomId playerId guessed = (w, Raise e) ∧ Forbidden e.
Proof.
  intros Hreach Hroom Hflag.
  destruct (reachable_room_inv _ _ _ _ Hreach Hroom) as [_ Hphase].
  rewrite Hflag in Hphase. destruct Hphase as (Hmantri & _).
  eexists. split; [| by eexists].
  eapply submit_guess_forbidden; [done | congruence].
Qed.

Lemma guess_before_assignment_forbidden_witness :
  ∃ e, submit_guess (world_of demo_room_full 6) "u1" "u0" "u3"
       = (world_of demo_room_full 6, Raise e) ∧ Forbidden e.
Proof.
  apply (guess_before_assignment_forbidden demo_uuid4 (world_of demo_room_full 6)
           "u1" demo_room_full "u0" "u3").
  - exists (serve demo_uuid4 init_world (take 2 demo_requests)).1,
      (take 2 demo_requests).
    split; [repeat constructor | vm_compute; reflexivity].
  - vm_compute. reflexivity.
  - reflexivity.
Defined.

(** X11: in a reachable world a request that raises leaves the world
    untouched, and what it raises is one of the 404, 400 and 403 errors; in
    particular the scoring loop never fails half-way with a [KeyError]. *)
Theorem failing_request_changes_nothing uuid4 w rq e :
  reachable uuid4 w →
  valid_request rq →
  (handle uuid4 w rq).2 = Raise e →
  http_error e ∧ (handle uuid4 w rq).1 = w.
Proof.
  intros [log Hexec] Hrq Hraise.
  pose proof (execution_room_inv _ _ _ Hexec) as Hinv.
  destruct (handle_effect uuid4 w rq Hrq Hinv)
    as [[Hw Hkind] | (k & r' & calls' & _ & _ & a & Hok)].
  - split; [by apply Hkind | done].
  - congruence.
Qed.

Lemma failing_request_changes_nothing_witness :
  http_error (HTTPException 403 "Only Mantri can guess") ∧
  (handle demo_uuid4 demo_world (SubmitGuess "u1" "u4" "u3")).1 = demo_world.
Proof.
  apply (failing_request_changes_nothing demo_uuid4 demo_world
           (SubmitGuess "u1" "u4" "u3")).
  - exists demo_log, demo_requests. split; [repeat constructor | reflexivity].
  - exact I.
  - vm_compute. reflexivity.
Defined.

(** X12: in a reachable world no score is negative, waitlisted players have
    no role and no points (nothing ever promotes or scores them), and while
    roles have never been assigned every active player is still at 0. *)
Theorem reachable_scores uuid4 w roomId room :
  reachable uuid4 w →
  rooms w !! roomId = Some room →
  Forall (λ p, 0 ≤ p_score p) (players room) ∧
  Forall (λ p, p_role p = None ∧ p_score p = 0) (waitlist room) ∧
  (roles_assigned room = false → Forall (λ p, p_score p = 0) (players room)).
Proof.
  intros [log Hexec] Hroom.
  destruct (execution_ledger_inv _ _ _ Hexec _ _ Hroom) as (Hs & Hw & _ & Hround).
  split_and!; [done | done |]. intros Hflag. rewrite Hflag in Hround.
  by destruct Hround as (_ & _ & ?).
Qed.

Lemma reachable_scores_witness :
  Forall (λ p, 0 ≤ p_score p) (players demo_room_guessed) ∧
  Forall (λ p, p_role p = None ∧ p_score p = 0) (waitlist demo_room_guessed) ∧
  (roles_assigned demo_room_guessed = false →
   Forall (λ p, p_score p = 0) (players demo_room_guessed)).
Proof.
  apply (reachable_scores demo_uuid4 demo_world "u1" demo_room_guessed).
  - exists demo_log, demo_requests. split; [repeat constructor | reflexivity].
  - vm_compute. reflexivity.
Defined.

(** X13: the round state of a room of a reachable world.  There are at most
    4 active players.  With [roles_assigned] set there are exactly 4, the
    four roles are dealt once each, the round number is at least 1 and
    [mantri_id] and [chor_id] are the ids of the holders of Mantri and Chor.
    With [roles_assigned] unset the round number is 0, nobody has a role,
    and no Mantri, Chor or guess is recorded.  With [guess_submitted] set,
    roles are assigned and a guessed id is stored. *)
Theorem reachable_round_state uuid4 w roomId room :
  reachable uuid4 w →
  rooms w !! roomId = Some room →
  (length (players room) ≤ 4)%nat ∧
  (roles_assigned room = true →
   length (players room) = 4%nat ∧ roles_dealt (players room) ∧
   1 ≤ round_number room ∧
   ∃ m c, m ∈ players room ∧ c ∈ players room ∧
          p_role m = Some "Mantri" ∧ p_role c = Some "Chor" ∧
          mantri_id room = Some (p_id m) ∧ chor_id room = Some (p_id c)) ∧
  (roles_assigned room = false →
   round_number room = 0 ∧ mantri_id room = None ∧ chor_id room = None ∧
   guess_submitted room = false ∧ guessed_player_id room = None ∧
   Forall (λ p, p_role p = None) (players room)) ∧
  (guess_submitted room = true →
   roles_assigned room = true ∧ is_Some (guessed_player_id room)).
Proof.
  intros Hreach Hroom. pose proof Hreach as [log Hexec].
  destruct (reachable_room_inv _ _ _ _ Hreach Hroom) as [Hlen Hphase].
  destruct (execution_ledger_inv _ _ _ Hexec _ _ Hroom) as (_ & _ & Hguess & Hround).
  split_and!; [done | | |].
  - intros Hflag.
    destruct (reachable_roles_assigned _ _ _ _ Hreach Hroom Hflag)
      as (Hlen4 & Hdealt & _ & (m & Hm & Hmr & Hmid) & (c & Hc & Hcr & Hcid)).
    rewrite Hflag in Hround. split_and!; try done. by exists m, c.
  - intros Hflag. rewrite Hflag in Hphase, Hround.
    destruct Hphase as (? & ? & ? & ?). destruct Hround as (? & ? & _). done.
  - intros Hflag. split; [by eapply reachable_guess_submitted | by apply Hguess].
Qed.

Lemma reachable_round_state_witness :
  length (players demo_room_guessed) = 4%nat ∧
  round_number demo_room_guessed = 1 ∧
  is_Some (guessed_player_id demo_room_guessed).
Proof.
  destruct (reachable_round_state demo_uuid4 demo_world "u1" demo_room_guessed)
    as (_ & Hassigned & _ & Hguess).
  - exists demo_log, demo_requests. split; [repeat constructor | reflexivity].
  - vm_compute. reflexivity.
  - split_and!; [by apply Hassigned | reflexivity | by apply Hguess].
Defined.

(** X14: when [uuid4] never repeats an identifier, every room of a reachable
    world is stored under its own id, and no two of its players, active or
    waitlisted, share an id. *)
Theorem reachable_ids_unique uuid4 w roomId room :
  Inj (=) (=) uuid4 →
  reachable uuid4 w →
  rooms w !! roomId = Some room →
  r_id room = roomId ∧ NoDup (map p_id (players room ++ waitlist room)).
Proof.
  intros Hinj [log Hexec] Hroom. split.
  - by destruct (execution_key_inv _ _ _ Hexec _ _ Hroom).
  - by destruct (execution_ids_inv _ Hinj _ _ Hexec _ _ Hroom).
Qed.

Lemma reachable_ids_unique_witness :
  r_id demo_room_guessed = "u1" ∧
  NoDup (map p_id (players demo_room_guessed ++ waitlist demo_room_guessed)).
Proof.
  apply (reachable_ids_unique demo_uuid4 demo_world "u1" demo_room_guessed).
  - exact demo_uuid4_inj.
  - exists demo_log, demo_requests. split; [repeat constructor | reflexivity].
  - vm_compute. reflexivity.
Defined.

(** X15: in a reachable world with unique identifiers, once roles are
    assigned in a room, a member of the room (active or waitlisted) who
    calls [submit_guess] is accepted if it holds the role Mantri and gets the
    403 error otherwise; an accepted guess is "correct" exactly when the
    guessed id is that of the active player holding Chor. *)
Theorem only_mantri_holder_may_guess uuid4 w roomId room p guessed :
  Inj (=) (=) uuid4 →
  reachable uuid4 w →
  rooms w !! roomId = Some room →
  roles_assigned room = true →
  p ∈ players room ++ waitlist room →
  (p_role p = Some "Mantri" →
   ∃ w' resp,
     submit_guess w roomId (p_id p) guessed = (w', Ok resp) ∧
     (gr_result resp = "correct" ↔
      ∃ q, q ∈ players room ∧ p_id q = guessed ∧ p_role q = Some "Chor")) ∧
  (p_role p ≠ Some "Mantri" →
   ∃ e, submit_guess w roomId (p_id p) guessed = (w, Raise e) ∧ Forbidden e).
Proof.
  intros Hinj Hreach Hroom Hflag Hp. pose proof Hreach as [log Hexec].
  destruct (reachable_room_inv _ _ _ _ Hreach Hroom) as [_ Hphase].
  rewrite Hflag in Hphase. destruct Hphase as (Hdealt & Hmantri & Hchor).
  destruct (execution_ledger_inv _ _ _ Hexec _ _ Hroom) as (_ & Hwait & _).
  destruct (execution_ids_inv _ Hinj _ _ Hexec _ _ Hroom) as [Hnd _].
  destruct (roles_dealt_holder _ "Mantri" Hdealt) as (m & Hm & Hmr);
    [compute_done |].
  destruct (roles_dealt_holder _ "Chor" Hdealt) as (c & Hc & Hcr);
    [compute_done |].
  split.
  - intros Hrole.
    assert (p ∈ players room) as Hactive.
    { apply elem_of_app in Hp as [? | Hp]; [done |].
      rewrite Forall_forall in Hwait. destruct (Hwait _ Hp). congruence. }
    eexists _, _. split.
    + apply submit_guess_ok; [done | by apply roles_dealt_has_role | by apply Hmantri].
    + cbn. rewrite (Hchor c Hc Hcr). case_bool_decide as Hguess.
      * split; [| done]. intros _. exists c. split_and!; [done | congruence | done].
      * split; [done |]. intros (q & Hq & Hid & Hqr). exfalso. apply Hguess.
        pose proof (Hchor q Hq Hqr) as Hq'. rewrite (Hchor c Hc Hcr) in Hq'.
        congruence.
  - intros Hrole. eexists. split; [| by eexists].
    eapply submit_guess_forbidden; [done |]. rewrite (Hmantri m Hm Hmr).
    intros [= Hid]. apply Hrole. rewrite <- Hmr. f_equal.
    apply (NoDup_fmap_elem_eq p_id (players room ++ waitlist room)); try done.
    apply elem_of_app. by left.
Qed.

Lemma only_mantri_holder_may_guess_witness :
  (∃ w' resp, submit_guess demo_world "u1" "u2" "u0" = (w', Ok resp)) ∧
  (∃ e, submit_guess demo_world "u1" "u5" "u0" = (demo_world, Raise e) ∧ Forbidden e).
Proof.
  assert (reachable demo_uuid4 demo_world) as Hreach.
  { exists demo_log, demo_requests. split; [repeat constructor | reflexivity]. }
  split.
  - destruct (only_mantri_holder_may_guess demo_uuid4 demo_world "u1"
                demo_room_guessed (mkPlayer "u2" "Bala" (Some "Mantri") 800) "u0")
      as [Hok _];
      [exact demo_uuid4_inj | exact Hreach | vm_compute; reflexivity | reflexivity
      | compute_done |].
    destruct (Hok eq_refl) as (w' & resp & Hcall & _). by exists w', resp.
  - destruct (only_mantri_holder_may_guess demo_uuid4 demo_world "u1"
                demo_room_guessed (mkPlayer "u5" "Esha" None 0) "u0")
      as [_ Hno];
      [exact demo_uuid4_inj | exact Hreach | vm_compute; reflexivity | reflexivity
      | compute_done |].
    apply Hno. discriminate.
Defined.

(** X16: when [uuid4] never repeats an identifier, no request takes a room
    away or sets it back: a room of a reachable world is still there after
    any request, under the same name, with the players it listed still
    listed first (same ids and names) and none of them with fewer points,
    the waitlist it had still at the head of the waitlist, a round number
    that has not gone down, and roles still assigned if they were. *)
Theorem rooms_persist uuid4 w rq roomId room :
  Inj (=) (=) uuid4 →
  reachable uuid4 w →
  valid_request rq →
  rooms w !! roomId = Some room →
  ∃ room',
    rooms (handle uuid4 w rq).1 !! roomId = Some room' ∧
    r_name room' = r_name room ∧
    map id_name (players room) `prefix_of` map id_name (players room') ∧
    (∀ i p p', players room !! i = Some p → players room' !! i = Some p' →
               p_score p ≤ p_score p') ∧
    waitlist room `prefix_of` waitlist room' ∧
    round_number room ≤ round_number room' ∧
    (roles_assigned room = true → roles_assigned room' = true).
Proof.
  intros Hinj [log Hexec] Hrq Hroom.
  pose proof (execution_room_inv _ _ _ Hexec) as Hinv.
  pose proof (execution_key_inv _ _ _ Hexec) as Hkeys.
  assert (∀ i p p', players room !! i = Some p → players room !! i = Some p' →
                    p_score p ≤ p_score p') as Hsame.
  { intros i p p' Hp Hp'. assert (p = p') as -> by congruence. lia. }
  destruct (handle_effect uuid4 w rq Hrq Hinv)
    as [[-> _] | (k & r' & calls' & Hupd & -> & _)].
  { exists room. by split_and!. }
  assert (∀ k0 r0, k0 ≠ roomId →
            ∃ room', <[k0 := r0]> (rooms w) !! roomId = Some room' ∧
              r_name room' = r_name room ∧
              map id_name (players room) `prefix_of` map id_name (players room') ∧
              (∀ i p p', players room !! i = Some p → players room' !! i = Some p' →
                         p_score p ≤ p_score p') ∧
              waitlist room `prefix_of` waitlist room' ∧
              round_number room ≤ round_number room' ∧
              (roles_assigned room = true → roles_assigned room' = true))
    as Hother.
  { intros k0 r0 Hne. exists room. rewrite lookup_insert_ne by done.
    by split_and!. }
  cbn.
  destruct Hupd as [roomName playerName
                   | roomId0 room0 names Hroom0
                   | roomId0 room0 shuffled Hroom0 Hlen Hperm
                   | roomId0 room0 playerId guessed Hroom0 Hmantri Hassigned Hdealt].
  - apply Hother. intros Hk.
    destruct (Hkeys _ _ Hroom) as (_ & n & Hn & Heq).
    rewrite <- Hk in Heq. apply Hinj in Heq. lia.
  - destruct (decide (roomId0 = roomId)) as [-> | Hne]; [| by apply Hother].
    rewrite lookup_insert_eq. eexists. split; [done |].
    assert (room0 = room) as -> by congruence. unfold joined_room. cbn.
    split_and!; try done.
    + rewrite map_app. by apply prefix_app_r.
    + intros i p p' Hp Hp'. rewrite (lookup_app_l_Some _ _ _ _ Hp) in Hp'.
      injection Hp' as <-. lia.
    + by apply prefix_app_r.
  - destruct (decide (roomId0 = roomId)) as [-> | Hne]; [| by apply Hother].
    rewrite lookup_insert_eq. eexists. split; [done |].
    assert (room0 = room) as -> by congruence.
    destruct (assigned_room_spec room shuffled Hlen Hperm) as (_ & Hframe & _).
    assert (waitlist (assigned_room room shuffled) = waitlist room ∧
            r_name (assigned_room room shuffled) = r_name room ∧
            roles_assigned (assigned_room room shuffled) = true ∧
            round_number (assigned_room room shuffled) = round_number room + 1)
      as (-> & -> & -> & ->).
    { unfold assigned_room. by destruct (assign_loop _ _ _ _) as [[? ?] ?]. }
    split_and!; try done; [| | lia].
    + assert (map id_name (players (assigned_room room shuffled))
              = map id_name (players room)) as ->; [| done].
      clear -Hframe. induction Hframe as [| p p' ps ps' (Hid & Hname & _) _ IH];
        [done |].
      cbn. rewrite IH. unfold id_name. by rewrite Hid, Hname.
    + intros i p p' Hp Hp'.
      destruct (Forall2_lookup_l _ _ _ _ _ Hframe Hp) as (q & Hq & _ & _ & Hs).
      assert (q = p') as -> by congruence. lia.
  - destruct (decide (roomId0 = roomId)) as [-> | Hne]; [| by apply Hother].
    rewrite lookup_insert_eq. eexists. split; [done |].
    assert (room0 = room) as -> by congruence. unfold guessed_room. cbn.
    split_and!; try done.
    + rewrite map_map. done.
    + intros i p p' Hp Hp'. rewrite list_lookup_fmap, Hp in Hp'.
      injection Hp' as <-. cbn. unfold player_delta.
      pose proof (table_delta_nonneg (bool_decide (Some guessed = chor_id room))
                    (default EmptyString (p_role p))). lia.
Qed.

Lemma rooms_persist_witness :
  ∃ room',
    rooms (handle demo_uuid4 demo_world (CreateRoom "hall" "Gita")).1 !! "u1"
    = Some room' ∧
    round_number demo_room_guessed ≤ round_number room'.
Proof.
  destruct (rooms_persist demo_uuid4 demo_world (CreateRoom "hall" "Gita") "u1"
              demo_room_guessed) as (room' & Hroom' & _ & _ & _ & _ & Hround & _).
  - exact demo_uuid4_inj.
  - exists demo_log, demo_requests. split; [repeat constructor | reflexivity].
  - exact I.
  - vm_compute. reflexivity.
  - by exists room'.
Defined.

Lemma role_or_unknown_ROLES role :
  role ∈ ROLES → role_or_unknown (Some role) = role.
Proof. rewrite elem_of_ROLES. by intros [-> | [-> | [-> | ->]]]. Qed.

(** X17: in a reachable world, when [result] answers, it leaves the world as
    it is and reports the room's round number (at least 1) with one entry
    per active player, in order, carrying that player's id, name, role and
    score; the four roles each appear once, so the "Unknown" placeholder
    never shows. *)
Theorem result_lists_players uuid4 w roomId room w' resp :
  reachable uuid4 w →
  rooms w !! roomId = Some room →
  result w roomId = (w', Ok resp) →
  w' = w ∧
  res_round resp = round_number room ∧ 1 ≤ res_round resp ∧
  Forall2 (λ p e, re_id e = p_id p ∧ re_name e = p_name p ∧
                  p_role p = Some (re_role e) ∧ re_score e = p_score p)
    (players room) (res_players resp) ∧
  map re_role (res_players resp) ≡ₚ ROLES.
Proof.
  intros Hreach Hroom. pose proof Hreach as [log Hexec].
  destruct (execution_ledger_inv _ _ _ Hexec _ _ Hroom) as (_ & _ & _ & Hround).
  unfold result. rewrite Hroom.
  destruct (roles_assigned room) eqn:Hflag; [| done].
  destruct (guess_submitted room); [| done]. cbn. intros [= <- <-]. cbn.
  destruct (reachable_roles_assigned _ _ _ _ Hreach Hroom Hflag)
    as (_ & Hdealt & Hroles & _).
  assert (Forall2 (λ p e, re_id e = p_id p ∧ re_name e = p_name p ∧
                          p_role p = Some (re_role e) ∧ re_score e = p_score p)
            (players room)
            (map (λ p, mkResultEntry (p_id p) (p_name p)
                         (role_or_unknown (p_role p)) (p_score p))
                 (players room))) as Hentries.
  { clear -Hroles. induction Hroles as [| p ps (role & Hrole & Hin) _ IH]; cbn;
      constructor; [| done].
    cbn. rewrite Hrole. by rewrite role_or_unknown_ROLES. }
  split_and!; try done.
  apply (Permutation_map (default EmptyString)) in Hdealt.
  match goal with |- ?l ≡ₚ _ =>
    assert (l = map (default EmptyString) (map p_role (players room))) as ->;
      [| exact Hdealt]
  end.
  clear -Hentries. induction Hentries as [| p e ps es (_ & _ & Hrole & _) _ IH];
    [done |].
  cbn in *. by rewrite IH, Hrole.
Qed.

Lemma result_lists_players_witness :
  ∃ resp,
    result demo_world "u1" = (demo_world, Ok resp) ∧
    res_round resp = 1 ∧ map re_role (res_players resp) ≡ₚ ROLES.
Proof.
  destruct (result_lists_players demo_uuid4 demo_world "u1" demo_room_guessed
              (result demo_world "u1").1
              (mkResultResponse 1
                 (map result_entry (players demo_room_guessed))))
    as (_ & Hround & _ & _ & Hroles).
  - exists demo_log, demo_requests. split; [repeat constructor | reflexivity].
  - vm_compute. reflexivity.
  - vm_compute. reflexivity.
  - eexists. split; [vm_compute; reflexivity |]. by split.
Defined.

Lemma dealt_scores correct ps ps1 : ∀ shuffled,
  Forall2 (λ p p', p_id p' = p_id p ∧ p_name p' = p_name p ∧ p_score p' = p_score p)
    ps ps1 →
  map p_role ps1 = map Some shuffled →
  map (λ p, p_score p + player_delta correct p) ps1
  = zip_with (λ p role, p_score p + table_delta correct role) ps shuffled.
Proof.
  intros shuffled Hframe. revert shuffled.
  induction Hframe as [| p p' ps ps' (_ & _ & Hs) _ IH];
    intros [| role shuffled] Hroles; try done.
  cbn in *. injection Hroles as Hrole Hroles.
  rewrite (IH _ Hroles), Hs. unfold player_delta. by rewrite Hrole.
Qed.

(** X18: one whole round.  From a room with 4 active players, dealing
    [shuffled] and then letting the player dealt Mantri guess succeeds; the
    result is "correct" exactly when the guessed id is that of the player
    dealt Chor; afterwards each active player holds the role dealt to its
    position and its score is the score it had before the round plus the
    table's delta for that role: [assign_roles] has not reset any score. *)
Theorem round_scores w roomId room shuffled guessed jm m jc c :
  rooms w !! roomId = Some room →
  length (players room) = 4%nat →
  shuffled ≡ₚ ROLES →
  shuffled !! jm = Some "Mantri" → players room !! jm = Some m →
  shuffled !! jc = Some "Chor" → players room !! jc = Some c →
  let correct := bool_decide (guessed = p_id c) in
  ∃ w1 w2 resp room2,
    assign_roles w roomId shuffled = (w1, Ok (round_number room + 1)) ∧
    submit_guess w1 roomId (p_id m) guessed = (w2, Ok resp) ∧
    (gr_result resp = "correct" ↔ guessed = p_id c) ∧
    gr_actualChorId resp = Some (p_id c) ∧
    rooms w2 !! roomId = Some room2 ∧
    map p_id (players room2) = map p_id (players room) ∧
    map p_role (players room2) = map Some shuffled ∧
    map p_score (players room2)
    = zip_with (λ p role, p_score p + table_delta correct role)
        (players room) shuffled.
Proof.
  intros Hroom Hlen Hperm Hjm Hm Hjc Hc correct.
  destruct (assigned_room_spec room shuffled Hlen Hperm)
    as (Hroles & Hframe & Hmantri & Hchor).
  set (room1 := assigned_room room shuffled) in *.
  assert (∀ j role p, shuffled !! j = Some role → players room !! j = Some p →
            ∃ p1, p1 ∈ players room1 ∧ p_role p1 = Some role ∧ p_id p1 = p_id p)
    as Hdealt_at.
  { intros j role p Hj Hp.
    destruct (Forall2_lookup_l _ _ _ _ _ Hframe Hp) as (p1 & Hp1 & Hid & _).
    exists p1. split_and!; [by eapply list_elem_of_lookup_2 | | done].
    apply (f_equal (λ l, l !! j)) in Hroles.
    rewrite !list_lookup_fmap, Hp1, Hj in Hroles. by injection Hroles. }
  destruct (Hdealt_at _ _ _ Hjm Hm) as (m1 & Hm1 & Hm1r & Hm1id).
  destruct (Hdealt_at _ _ _ Hjc Hc) as (c1 & Hc1 & Hc1r & Hc1id).
  pose proof (Hmantri _ Hm1 Hm1r) as Hmid. rewrite Hm1id in Hmid.
  pose proof (Hchor _ Hc1 Hc1r) as Hcid. rewrite Hc1id in Hcid.
  assert (roles_dealt (players room1)) as Hdealt.
  { unfold roles_dealt. rewrite Hroles. by apply fmap_Permutation. }
  set (w1 := mkWorld (<[roomId := room1]> (rooms w)) (uuid_calls w)).
  assert (rooms w1 !! roomId = Some room1) as Hroom1.
  { cbn. by rewrite lookup_insert_eq. }
  pose proof (submit_guess_ok w1 roomId room1 (p_id m) guessed Hroom1
                (roles_dealt_has_role _ Hdealt) Hmid) as Hguess.
  rewrite Hcid in Hguess.
  assert (bool_decide (Some guessed = Some (p_id c)) = correct) as Hcorrect.
  { unfold correct. apply bool_decide_ext. split; congruence. }
  rewrite Hcorrect in Hguess.
  eexists w1, _, _, (guessed_room room1 guessed).
  split_and!; [by apply assign_roles_ok | exact Hguess | | | | | |].
  - cbn. unfold correct.
    destruct (bool_decide_reflect (guessed = p_id c)) as [Hd | Hd].
    + by split.
    + split; [done |]. intros He. by destruct Hd.
  - reflexivity.
  - cbn. by rewrite lookup_insert_eq.
  - unfold guessed_room. cbn. rewrite map_map. cbn.
    clear -Hframe. induction Hframe as [| p p' ps ps' (Hid & _) _ IH]; [done |].
    cbn. by rewrite IH, Hid.
  - unfold guessed_room. cbn. by rewrite add_score_roles.
  - unfold guessed_room. cbn. rewrite map_map, Hcid, Hcorrect. cbn.
    by apply dealt_scores.
Qed.

Lemma round_scores_witness :
  ∃ w1 w2 resp room2,
    assign_roles demo_world "u1" ["Chor"; "Raja"; "Sipahi"; "Mantri"] = (w1, Ok 2) ∧
    submit_guess w1 "u1" "u4" "u2" = (w2, Ok resp) ∧
    gr_result resp = "incorrect" ∧
    rooms w2 !! "u1" = Some room2 ∧
    map p_score (players room2) = [1800; 1800; 500; 500].
Proof.
  destruct (round_scores demo_world "u1" demo_room_guessed
              ["Chor"; "Raja"; "Sipahi"; "Mantri"] "u2"
              3 (mkPlayer "u4" "Dev" (Some "Sipahi") 500)
              0 (mkPlayer "u0" "Asha" (Some "Raja") 1000))
    as (w1 & w2 & resp & room2 & Hassign & Hguess & Hres & _ & Hroom2 & _ & _ & Hs).
  - vm_compute. reflexivity.
  - reflexivity.
  - compute_done.
  - reflexivity.
  - reflexivity.
  - reflexivity.
  - reflexivity.
  - exists w1, w2, resp, room2. split_and!; try done.
    vm_compute in Hassign. injection Hassign as <-.
    vm_compute in Hguess. injection Hguess as _ <-. reflexivity.
Defined.
